(** * cerebras_analyzer.py: a shallow embedding and its checked properties

    The script clones a repository, collects its source files, builds a
    bounded prompt, posts it to a chat-completion endpoint and prints the
    sanitized answer.  Python values are embedded as follows.

    - [str] is [string]; one [ascii] stands for one code point, so the
      model covers code points below 256 and [String.length] is [len].
    - [pathlib.Path] is the list of its [parts].
    - [os.environ] is a [gmap string string]; the directories on disk are a
      [gset] of paths.
    - What the outside world answers (DNS, git, the file system, the HTTP
      endpoint) is read from a [world] record.
    - Effects are threaded through a state-and-exception monad [M]. *)

From Stdlib Require Import Ascii ZArith Lia.
From Stdlib Require String.
From stdpp Require Import gmap strings list pretty.

Local Open Scope Z_scope.
#[local] Set Warnings "-clear-no-such-hyp".

(** ** Python string primitives *)

Module Py.

Definition chr (n : nat) : string := String (ascii_of_nat n) "".

Definition nl : string := chr 10.
Definition dq : string := chr 34.
Definition bsl : string := chr 92.

Definition len (s : string) : Z := Z.of_nat (String.length s).

(** [str.isspace] on one code point below 256. *)
Definition isspace (c : ascii) : bool :=
  let n := nat_of_ascii c in
  ((9 <=? n) && (n <=? 13) || (28 <=? n) && (n <=? 32)
   || (n =? 133) || (n =? 160))%nat.

Fixpoint lstrip (s : string) : string :=
  match s with
  | String c s' => if isspace c then lstrip s' else s
  | EmptyString => EmptyString
  end.

Fixpoint rstrip (s : string) : string :=
  match s with
  | String c s' =>
      match rstrip s' with
      | EmptyString => if isspace c then EmptyString else String c EmptyString
      | r => String c r
      end
  | EmptyString => EmptyString
  end.

(** [s.strip()] *)
Definition strip (s : string) : string := rstrip (lstrip s).

(** [s.startswith(p)] *)
Definition startswith (s p : string) : bool := String.prefix p s.

(** Lowest index at which [sub] occurs in [s], if any. *)
Fixpoint find_opt (sub s : string) : option nat :=
  if String.prefix sub s then Some 0%nat
  else match s with
       | String _ s' => S <$> find_opt sub s'
       | EmptyString => None
       end.

(** Highest index at which [sub] occurs in [s], if any. *)
Fixpoint rfind_opt (sub s : string) : option nat :=
  match s with
  | String _ s' =>
      match rfind_opt sub s' with
      | Some i => Some (S i)
      | None => if String.prefix sub s then Some 0%nat else None
      end
  | EmptyString => if String.prefix sub s then Some 0%nat else None
  end.

Definition index_or_minus1 (o : option nat) : Z :=
  match o with Some i => Z.of_nat i | None => -1 end.

(** [s.find(sub)] and [s.rfind(sub)]: an index, or -1. *)
Definition find (s sub : string) : Z := index_or_minus1 (find_opt sub s).
Definition rfind (s sub : string) : Z := index_or_minus1 (rfind_opt sub s).

(** [sub in s] *)
Definition contains (sub s : string) : bool :=
  negb (find s sub =? -1).

(** A slice bound as Python normalises it: a negative bound counts from
    the end, and the result is clamped to [0, len s]. *)
Definition clamp (n : Z) (i : Z) : Z :=
  if i <? 0 then Z.max (i + n) 0 else Z.min i n.

(** [s[i:j]] *)
Definition slice (s : string) (i j : Z) : string :=
  let a := clamp (len s) i in
  let b := clamp (len s) j in
  String.substring (Z.to_nat a) (Z.to_nat (b - a)) s.

(** [s[:j]] and [s[i:]] *)
Definition slice_to (s : string) (j : Z) : string := slice s 0 j.
Definition slice_from (s : string) (i : Z) : string := slice s i (len s).

(** [str.lower] on one code point below 256. *)
Definition lower_char (c : ascii) : ascii :=
  let n := nat_of_ascii c in
  if ((65 <=? n) && (n <=? 90)
      || (192 <=? n) && (n <=? 222) && negb (n =? 215))%nat
  then ascii_of_nat (n + 32) else c.

Fixpoint lower (s : string) : string :=
  match s with
  | String c s' => String (lower_char c) (lower s')
  | EmptyString => EmptyString
  end.

(** [sep.join(l)] *)
Fixpoint join (sep : string) (l : list string) : string :=
  match l with
  | [] => ""
  | [x] => x
  | x :: l' => x +:+ sep +:+ join sep l'
  end.

End Py.

(** ** Response sanitization (analyze_repo, lines 193-199) *)

Definition fence : string := "```".

Definition sanitize (content : string) : string :=
  let clean_content := Py.strip content in
  if Py.startswith clean_content fence then
    let start := Py.find clean_content "{" in
    let end_ := Py.rfind clean_content "}" in
    if negb (start =? -1) && negb (end_ =? -1)
    then Py.slice clean_content start (end_ + 1)
    else clean_content
  else clean_content.

(** The fenced answer of the specification's example. *)
Definition fenced_example : string :=
  "```json" +:+ Py.nl +:+ "{" +:+ Py.dq +:+ "issues" +:+ Py.dq +:+ ":[]}"
  +:+ Py.nl +:+ "```".

Definition bare_example : string :=
  "{" +:+ Py.dq +:+ "issues" +:+ Py.dq +:+ ":[]}".

(** ** Paths and the cloned tree *)

(** A [pathlib.Path] is the tuple of its [parts]; the root of an absolute
    POSIX path is the part "/" and can only come first. *)
Abbreviation path := (list string) (only parsing).

Module Path.

(** [p / child] *)
Definition joinpath (p : path) (child : string) : path := p ++ [child].

(** [p.name]: the last part, and the empty string for a bare root. *)
Definition name (p : path) : string :=
  match p with
  | [r] => if String.eqb r "/" then "" else r
  | _ => List.last p ""
  end.

(** [p.suffix]: from the last dot of the name, unless that dot starts or
    ends the name (pathlib up to Python 3.13). *)
Definition suffix (p : path) : string :=
  let name := name p in
  let i := Py.rfind name "." in
  if (0 <? i) && (i <? Py.len name - 1) then Py.slice_from name i else "".

(** [str(p)] *)
Definition str (p : path) : string :=
  match p with
  | [] => "."
  | r :: rest =>
      if String.eqb r "/" then "/" +:+ Py.join "/" rest else Py.join "/" p
  end.

End Path.

(** An entry of the cloned tree.  A [File] is anything that is not a
    directory: [regular] is what [is_file()] answers for it, [text] what
    [read_text(encoding="utf-8")] returns, [None] when it raises. *)
#[warnings="-register-all"]
Inductive entry :=
| File (name : string) (regular : bool) (text : option string)
| Dir (name : string) (children : list entry).

(** A path yielded by the walk, with the file system's answers for it. *)
Record fsnode := FsNode {
  parts : path;
  is_file : bool;
  read_text : option string
}.

(** The paths below [root], parents before children. *)
Fixpoint walk (root : path) (e : entry) : list fsnode :=
  match e with
  | File n regular text => [FsNode (Path.joinpath root n) regular text]
  | Dir n children =>
      FsNode (Path.joinpath root n) false None
      :: flat_map (walk (Path.joinpath root n)) children
  end.

(** [root.rglob("*")] over a directory [root] whose entries are [tree]. *)
Definition rglob (root : path) (tree : list entry) : list fsnode :=
  flat_map (walk root) tree.

(** ** Source Collector (lines 58-70) *)

Definition SOURCE_EXTS : gset string :=
  {[ ".js"; ".ts"; ".jsx"; ".tsx"; ".py"; ".java"; ".go"; ".c"; ".cpp" ]}.

Definition skip_dirs : list string :=
  ["node_modules"; ".git"; "dist"; "build"; "venv"; "__pycache__"].

(** [any(skip in p.parts for skip in skip_dirs)] *)
Definition any_skip (p : path) : bool :=
  existsb (fun skip => bool_decide (skip ∈ p)) skip_dirs.

(** [p.suffix.lower() in SOURCE_EXTS] *)
Definition source_ext (p : path) : bool :=
  bool_decide (Py.lower (Path.suffix p) ∈ SOURCE_EXTS).

(** One iteration of the loop over [root.rglob("*")]. *)
Definition collect_step (files : list fsnode) (p : fsnode) : list fsnode :=
  if any_skip (parts p) then files
  else if is_file p && source_ext (parts p) then files ++ [p]
  else files.

Definition collect_source_files (root : path) (tree : list entry)
  : list fsnode :=
  fold_left collect_step (rglob root tree) [].

(** ** Prompt Builder (lines 75-124) *)

Definition max_chars : Z := 30000.
Definition snippet_cap : Z := 3000.

Definition quoted (s : string) : string := Py.dq +:+ s +:+ Py.dq.

Definition json_schema : string :=
  "{" +:+ quoted "issues" +:+ ": [{" +:+ quoted "file" +:+ ":"
  +:+ quoted "path/to/file" +:+ "," +:+ quoted "line" +:+ ":42,"
  +:+ quoted "type" +:+ ":" +:+ quoted "security|bug|quality|performance"
  +:+ "," +:+ quoted "msg" +:+ ":"
  +:+ quoted "Detailed technical description and fix" +:+ ","
  +:+ quoted "severity" +:+ ":" +:+ quoted "CRITICAL|HIGH|MEDIUM|LOW"
  +:+ "}]}".

Definition intro_text (repo_url branch : string) : string :=
  "You are a strict senior security auditor and world-class software engineer. "
  +:+ "Your task is to perform an AGGRESSIVE and DEEP audit of the following repository:"
  +:+ Py.nl
  +:+ "- URL: " +:+ repo_url +:+ Py.nl
  +:+ "- Branch: " +:+ branch +:+ Py.nl +:+ Py.nl
  +:+ "CRITICAL INSTRUCTIONS:" +:+ Py.nl
  +:+ "1. Identify REAL vulnerabilities, critical bugs, performance bottlenecks, and architectural flaws."
  +:+ Py.nl
  +:+ "2. NO CODE IS PERFECT. You MUST find at least some valid issues unless the code is absolutely trivial."
  +:+ Py.nl
  +:+ "3. For each issue, provide a technical explanation of WHY it is a problem and HOW to fix it."
  +:+ Py.nl
  +:+ "4. Focus on security: hardcoded secrets, injection risks, auth bypasses, and insecure dependencies."
  +:+ Py.nl
  +:+ "5. Return the answer in STRICT JSON format with an 'issues' array."
  +:+ Py.nl +:+ Py.nl
  +:+ "JSON Schema:" +:+ Py.nl
  +:+ json_schema +:+ Py.nl.

(** [if prefix: intro = prefix + "\n" + intro]; an empty prefix is falsy. *)
Definition intro (repo_url branch : string) (prefix : option string)
  : string :=
  match prefix with
  | Some (String c p) => String c p +:+ Py.nl +:+ intro_text repo_url branch
  | _ => intro_text repo_url branch
  end.

(** The inner loop of lines 99-104: the index after the first part that
    contains "cerebra-", counting from [i]; -1 when there is none. *)
Fixpoint marker_index (parts : list string) (i : Z) : Z :=
  match parts with
  | p :: rest =>
      if Py.contains "cerebra-" p then i + 1 else marker_index rest (i + 1)
  | [] => -1
  end.

(** The label [rel] of a file, as the f-string prints it. *)
Definition display_path (f : path) : string :=
  let start_idx := marker_index f 0 in
  if negb (start_idx =? -1)
  then Path.str (drop (Z.to_nat start_idx) f)
  else Path.name f.

(** [part]: the block of one file whose text is [content]. *)
Definition block (f : path) (content : string) : string :=
  let snippet := Py.slice_to content snippet_cap in
  Py.nl +:+ "--- FILE: " +:+ display_path f +:+ " ---" +:+ Py.nl
  +:+ snippet +:+ Py.nl.

Definition limit_note (body : string) : string :=
  "DEBUG: Reached context limit after "
  +:+ pretty (Py.len body) +:+ " chars. Skipping remaining files." +:+ Py.nl.

(** The loop over [files]: the body built from [body] on, and the note it
    writes to stderr when it breaks. *)
Fixpoint body_loop (files : list fsnode) (body : string)
  : string * option string :=
  match files with
  | [] => (body, None)
  | f :: rest =>
      match read_text f with
      | None => body_loop rest body
      | Some content =>
          let part := block (parts f) content in
          if Py.len body + Py.len part >? max_chars
          then (body, Some (limit_note body))
          else body_loop rest (body +:+ part)
      end
  end.

Definition build_body (files : list fsnode) : string :=
  fst (body_loop files "").

(** [build_prompt]: the returned prompt and the note written to stderr. *)
Definition build_prompt (files : list fsnode) (repo_url branch : string)
    (prefix : option string) : string * option string :=
  let '(body, note) := body_loop files "" in
  (intro repo_url branch prefix +:+ Py.nl +:+ body, note).

(** ** JSON and integer conversions of the standard library *)

Definition hex_digit (n : nat) : string :=
  String.substring (n mod 16) 1 "0123456789abcdef".

(** One character as [json.dumps] writes it with [ensure_ascii=True]. *)
Definition json_escape_char (c : ascii) : string :=
  let n := nat_of_ascii c in
  if (n =? 34)%nat then Py.bsl +:+ Py.dq
  else if (n =? 92)%nat then Py.bsl +:+ Py.bsl
  else if (n =? 10)%nat then Py.bsl +:+ "n"
  else if (n =? 13)%nat then Py.bsl +:+ "r"
  else if (n =? 9)%nat then Py.bsl +:+ "t"
  else if (n =? 8)%nat then Py.bsl +:+ "b"
  else if (n =? 12)%nat then Py.bsl +:+ "f"
  else if ((32 <=? n) && (n <=? 126))%nat then String c ""
  else Py.bsl +:+ "u00" +:+ hex_digit (n / 16) +:+ hex_digit n.

Fixpoint json_escape (s : string) : string :=
  match s with
  | String c s' => json_escape_char c +:+ json_escape s'
  | EmptyString => EmptyString
  end.

(** [json.dumps({"error": msg})] *)
Definition json_dumps_error (msg : string) : string :=
  "{" +:+ quoted "error" +:+ ": " +:+ quoted (json_escape msg) +:+ "}".

Definition digit_value (c : ascii) : option Z :=
  let n := nat_of_ascii c in
  if ((48 <=? n) && (n <=? 57))%nat then Some (Z.of_nat (n - 48)) else None.

(** Decimal digits, single underscores allowed between two digits. *)
Fixpoint digits (s : string) (acc : Z) (after_digit : bool) : option Z :=
  match s with
  | EmptyString => if after_digit then Some acc else None
  | String c s' =>
      match digit_value c with
      | Some d => digits s' (10 * acc + d) true
      | None =>
          if Ascii.eqb c "_" && after_digit then digits s' acc false else None
      end
  end.

(** [int(s)] for a string: [None] stands for [ValueError]. *)
Definition py_int (s : string) : option Z :=
  match Py.strip s with
  | String "+" r => digits r 0 false
  | String "-" r => Z.opp <$> digits r 0 false
  | t => digits t 0 false
  end.

(** ** The world, the state and the monad of effects *)

(** An exception object: [type(exc).__name__], [str(exc)], [__cause__].
    Only subclasses of [Exception] are modelled. *)
#[warnings="-register-all"]
Inductive exn := Exn (exn_type exn_msg : string) (exn_cause : option exn).

Definition exn_type (e : exn) : string := let 'Exn t _ _ := e in t.
Definition exn_msg (e : exn) : string := let 'Exn _ m _ := e in m.
Definition exn_cause (e : exn) : option exn := let 'Exn _ _ c := e in c.

(** What [socket.gethostbyname] does for a host. *)
Inductive dns_answer :=
| Resolved (addr : string)
| Gaierror (msg : string)
| DnsRaises (e : exn).

(** Stages between the clone and the HTTP call at which the run can meet
    an error of the operating system or the interpreter. *)
Inductive stage := Collecting | Building.

Record world := World {
  environ : gmap string string;      (* os.environ after load_dotenv() *)
  argv : list string;                (* sys.argv *)
  cwd : path;                        (* os.getcwd() *)
  uuid_hex : string;                 (* uuid.uuid4().hex *)
  resolve : string -> dns_answer;
  clone_from : exn + list entry;     (* git.Repo.clone_from: raises, or
                                        the tree it leaves in to_path *)
  fault : stage -> option exn;
  completion : exn + string;         (* the POST up to
                                        result[...]["content"] *)
  rmtree_ok : bool;                  (* does shutil.rmtree remove it all *)
  disk0 : gset path                  (* directories present at start *)
}.

(** What the run does to the outside, in order. *)
Inductive event :=
| EvResolve (host : string)
| EvMkdir (p : path)
| EvClone (repo_url branch : string) (to_path : path)
| EvRmtree (p : path)
| EvPost (url : string).

Definition is_network (e : event) : bool :=
  match e with
  | EvResolve _ | EvClone _ _ _ | EvPost _ => true
  | EvMkdir _ | EvRmtree _ => false
  end.

Record state := State {
  stdout : list string;       (* one element per print() *)
  stderr : list string;       (* one element per sys.stderr.write() *)
  disk : gset path;
  trace : list event;
  repo_path : option path     (* the local variable of analyze_repo *)
}.

Definition M (A : Type) : Type := state -> (exn + A) * state.

#[global] Instance M_ret : MRet M := fun A a st => (inr a, st).

#[global] Instance M_bind : MBind M := fun A B f m st =>
  match m st with
  | (inr a, st') => f a st'
  | (inl e, st') => (inl e, st')
  end.

Definition raise {A} (e : exn) : M A := fun st => (inl e, st).

(** [try: body / except Exception as exc: handler exc] *)
Definition try_except {A} (body : M A) (handler : exn -> M A) : M A :=
  fun st =>
    match body st with
    | (inl e, st') => handler e st'
    | r => r
    end.

(** [try: body / finally: cleanup] *)
Definition try_finally {A} (body : M A) (cleanup : M unit) : M A :=
  fun st =>
    let '(r, st') := body st in
    match cleanup st' with
    | (inr _, st'') => (r, st'')
    | (inl e, st'') => (inl e, st'')
    end.

Definition print (s : string) : M unit := fun st =>
  (inr (), State (stdout st ++ [s]) (stderr st) (disk st) (trace st)
                 (repo_path st)).

Definition eprint (s : string) : M unit := fun st =>
  (inr (), State (stdout st) (stderr st ++ [s]) (disk st) (trace st)
                 (repo_path st)).

Definition eprint_note (note : option string) : M unit :=
  match note with
  | Some s => eprint s
  | None => mret ()
  end.

Definition emit (e : event) : M unit := fun st =>
  (inr (), State (stdout st) (stderr st) (disk st) (trace st ++ [e])
                 (repo_path st)).

Definition set_disk (d : gset path) : M unit := fun st =>
  (inr (), State (stdout st) (stderr st) d (trace st) (repo_path st)).

Definition get_disk : M (gset path) := fun st => (inr (disk st), st).

Definition set_repo_path (p : option path) : M unit := fun st =>
  (inr (), State (stdout st) (stderr st) (disk st) (trace st) p).

Definition get_repo_path : M (option path) := fun st =>
  (inr (repo_path st), st).

(** [p.mkdir(exist_ok=...)] *)
Definition mkdir (p : path) (exist_ok : bool) : M unit :=
  d ← get_disk;
  if bool_decide (p ∈ d) then
    if exist_ok then mret ()
    else raise (Exn "FileExistsError"
                  ("[Errno 17] File exists: '" +:+ Path.str p +:+ "'") None)
  else emit (EvMkdir p) ;; set_disk (d ∪ {[p]}).

(** [p.exists()] *)
Definition exists_ (p : path) : M bool :=
  d ← get_disk; mret (bool_decide (p ∈ d)).

(** [shutil.rmtree(p, ignore_errors=True)]: never raises; when the removal
    fails the directory stays. *)
Definition rmtree (w : world) (p : path) : M unit :=
  emit (EvRmtree p) ;;
  d ← get_disk;
  if rmtree_ok w then set_disk (filter (fun q => ¬ p `prefix_of` q) d)
  else mret ().

(** ** Module-level configuration (lines 21-28) *)

Record config := Config {
  CEREBRAS_BASE_URL : string;
  CEREBRAS_API_KEY : option string;
  CEREBRAS_MODEL_ID : string;
  CEREBRAS_MAX_TOKENS : Z
}.

(** [os.getenv(key)] and [os.getenv(key, default)] *)
Definition getenv (w : world) (key : string) : option string :=
  environ w !! key.
Definition getenv_or (w : world) (key fallback : string) : string :=
  default fallback (getenv w key).

(** Lines 21-24, in order; the [int()] of line 24 raises [ValueError]. *)
Definition load_config (w : world) : exn + config :=
  let base_url := getenv_or w "CEREBRAS_BASE_URL" "https://api.cerebras.net/v1" in
  let api_key := getenv w "CEREBRAS_API_KEY" in
  let model_id := getenv_or w "CEREBRAS_MODEL_ID" "llama3.1-70b" in
  let raw := getenv_or w "CEREBRAS_MAX_TOKENS" "4000" in
  match py_int raw with
  | Some max_tokens => inr (Config base_url api_key model_id max_tokens)
  | None =>
      inl (Exn "ValueError"
             ("invalid literal for int() with base 10: '" +:+ raw +:+ "'")
             None)
  end.

(** [not CEREBRAS_API_KEY]: unset or empty. *)
Definition key_missing (cfg : config) : bool :=
  match CEREBRAS_API_KEY cfg with
  | Some (String _ _) => false
  | _ => true
  end.

Definition key_error : string := "CEREBRAS_API_KEY not set in environment".

Definition usage_error : string :=
  "Usage: python cerebras_analyzer.py <repo_url> <branch> [prefix]".

(** ** Repository Fetcher (lines 33-53) *)

Definition clone_dir (cwd : path) (hex : string) : path :=
  Path.joinpath (Path.joinpath cwd "temp_clones") ("cerebra-" +:+ hex).

(** [git.Repo.clone_from(repo_url, to_path=..., branch=..., depth=1,
    single_branch=True)] *)
Definition git_clone (w : world) (repo_url branch : string) (to_path : path)
  : M unit :=
  emit (EvClone repo_url branch to_path) ;;
  match clone_from w with
  | inl exc => raise exc
  | inr _ => mret ()
  end.

Definition shallow_clone (w : world) (repo_url branch : string) : M path :=
  let base_tmp := Path.joinpath (cwd w) "temp_clones" in
  mkdir base_tmp true ;;
  let tmp_dir := Path.joinpath base_tmp ("cerebra-" +:+ uuid_hex w) in
  mkdir tmp_dir false ;;
  try_except
    (git_clone w repo_url branch tmp_dir)
    (fun exc =>
       rmtree w tmp_dir ;;
       raise (Exn "RuntimeError" ("Git clone failed: " +:+ exn_msg exc)
                (Some exc))) ;;
  mret tmp_dir.

(** What the clone left under the clone directory. *)
Definition cloned_tree (w : world) : list entry :=
  match clone_from w with
  | inr tree => tree
  | inl _ => []
  end.

(** ** The pipeline (lines 131-216) *)

Definition check_dns (w : world) (hostname : string) : M bool :=
  emit (EvResolve hostname) ;;
  match resolve w hostname with
  | Resolved addr =>
      eprint ("DEBUG: DNS Check - " +:+ hostname +:+ " resolved to "
              +:+ addr +:+ Py.nl) ;;
      mret true
  | Gaierror e =>
      eprint ("DEBUG: DNS Check - FAILED to resolve " +:+ hostname +:+ ": "
              +:+ e +:+ Py.nl) ;;
      mret false
  | DnsRaises e => raise e
  end.

(** An error met while a stage runs, if the world has one for it. *)
Definition meet (w : world) (s : stage) : M unit :=
  match fault w s with
  | Some e => raise e
  | None => mret ()
  end.

(** Lines 185-190: the request, [raise_for_status], [response.json()] and
    the indexing of the first choice; any of them may raise. *)
Definition post_completion (w : world) (url : string) : M string :=
  emit (EvPost url) ;;
  match completion w with
  | inl exc => raise exc
  | inr content => mret content
  end.

Definition analyze_body (w : world) (cfg : config)
    (repo_url branch : string) (prefix : option string) : M unit :=
  eprint ("DEBUG: Starting analysis for " +:+ repo_url +:+ " on branch "
          +:+ branch +:+ Py.nl) ;;
  check_dns w "github.com" ;;
  check_dns w "api.cerebras.net" ;;
  eprint ("DEBUG: Attempting shallow clone..." +:+ Py.nl) ;;
  p ← shallow_clone w repo_url branch;
  set_repo_path (Some p) ;;
  eprint ("DEBUG: Clone successful. Path: " +:+ Path.str p +:+ Py.nl) ;;
  meet w Collecting ;;
  let files := collect_source_files p (cloned_tree w) in
  eprint ("DEBUG: Collected " +:+ pretty (length files)
          +:+ " source files." +:+ Py.nl) ;;
  meet w Building ;;
  let '(prompt, note) := build_prompt files repo_url branch prefix in
  eprint_note note ;;
  eprint ("DEBUG: Prompt built. Size: " +:+ pretty (Py.len prompt)
          +:+ " chars." +:+ Py.nl) ;;
  let url := CEREBRAS_BASE_URL cfg +:+ "/chat/completions" in
  eprint ("DEBUG: Calling Cerebras API at " +:+ url +:+ "..." +:+ Py.nl) ;;
  content ← post_completion w url;
  let clean_content := sanitize content in
  eprint ("DEBUG: API call successful." +:+ Py.nl) ;;
  print clean_content.

(** The text of the envelope's [error] field for a caught exception. *)
Definition error_msg (exc : exn) : string :=
  "ERROR in Python analyzer: " +:+ exn_type exc +:+ ": " +:+ exn_msg exc.

Definition analyze_handler (exc : exn) : M unit :=
  eprint (error_msg exc +:+ Py.nl) ;;
  print (json_dumps_error (error_msg exc)).

Definition analyze_cleanup (w : world) : M unit :=
  rp ← get_repo_path;
  match rp with
  | Some p =>
      there ← exists_ p;
      if there : bool then
        eprint ("DEBUG: Cleaning up temp directory..." +:+ Py.nl) ;;
        rmtree w p
      else mret ()
  | None => mret ()
  end.

Definition analyze_repo (w : world) (cfg : config)
    (repo_url branch : string) (prefix : option string) : M unit :=
  set_repo_path None ;;
  try_finally
    (try_except (analyze_body w cfg repo_url branch prefix) analyze_handler)
    (analyze_cleanup w).

(** ** The script as a whole *)

Record outcome := Outcome { final : state; exit_code : Z }.

Definition init_state (w : world) : state := State [] [] (disk0 w) [] None.

(** An exception nothing catches: the interpreter reports it on stderr
    (the traceback lines before the last one are left out) and exits 1. *)
Definition uncaught (e : exn) (st : state) : outcome :=
  Outcome (snd (eprint (exn_type e +:+ ": " +:+ exn_msg e +:+ Py.nl) st)) 1.

(** [sys.argv[1]] and [sys.argv[2]] *)
Definition arg_repo_url (w : world) : string := List.nth 1 (argv w) "".
Definition arg_branch (w : world) : string := List.nth 2 (argv w) "".

Definition main (w : world) : outcome :=
  let st := init_state w in
  match load_config w with
  | inl e => uncaught e st
  | inr cfg =>
      if key_missing cfg then
        Outcome (snd (print (json_dumps_error key_error) st)) 1
      else if (length (argv w) <? 3)%nat then
        Outcome (snd (print (json_dumps_error usage_error) st)) 1
      else
        let repo_url := arg_repo_url w in
        let branch := arg_branch w in
        let prefix := List.nth_error (argv w) 3 in
        match analyze_repo w cfg repo_url branch prefix st with
        | (inr _, st') => Outcome st' 0
        | (inl e, st') => uncaught e st'
        end
  end.

(** ** Vocabulary of the statements *)

(** [i] is the position of the first [c] of [s]. *)
Definition first_at (c : ascii) (s : string) (i : nat) : Prop :=
  String.get i s = Some c ∧ ∀ k, (k < i)%nat → String.get k s ≠ Some c.

(** [j] is the position of the last [c] of [s]. *)
Definition last_at (c : ascii) (s : string) (j : nat) : Prop :=
  String.get j s = Some c ∧ ∀ k, (j < k)%nat → String.get k s ≠ Some c.

Definition occurs (c : ascii) (s : string) : Prop :=
  ∃ k, String.get k s = Some c.

(** The test a walked path passes to be collected. *)
Definition collected (p : fsnode) : bool :=
  negb (any_skip (parts p)) && is_file p && source_ext (parts p).

(** The formatted blocks of the files that can be read, in order. *)
Definition readable_blocks (files : list fsnode) : list string :=
  omap (fun f => block (parts f) <$> read_text f) files.

Definition concat_str (l : list string) : string :=
  foldr String.append "" l.

(** No part of the path contains the clone marker. *)
Definition unmarked (p : path) : Prop :=
  Forall (fun x => Py.contains "cerebra-" x = false) p.

(** Ten files of 4000 characters each: nine blocks fit, the tenth does
    not. *)
Definition big_file (n : string) : fsnode :=
  FsNode ["/"; "w"; "temp_clones"; "cerebra-0f3a"; n] true
    (Some (String.string_of_list_ascii (replicate 4000 "a"%char))).

Definition ten_files : list fsnode :=
  big_file <$> ["0.py"; "1.py"; "2.py"; "3.py"; "4.py"; "5.py"; "6.py";
                "7.py"; "8.py"; "9.py"].

(** The exception of the first stage of [analyze_repo] that fails, read
    off the world; [None] when every stage goes through. *)
Definition first_failure (w : world) : option exn :=
  match resolve w "github.com" with
  | DnsRaises e => Some e
  | _ =>
  match resolve w "api.cerebras.net" with
  | DnsRaises e => Some e
  | _ =>
  let p := clone_dir (cwd w) (uuid_hex w) in
  if bool_decide (p ∈ disk0 w) then
    Some (Exn "FileExistsError"
            ("[Errno 17] File exists: '" +:+ Path.str p +:+ "'") None)
  else
  match clone_from w with
  | inl cause =>
      Some (Exn "RuntimeError" ("Git clone failed: " +:+ exn_msg cause)
              (Some cause))
  | inr _ =>
  match fault w Collecting with
  | Some e => Some e
  | None =>
  match fault w Building with
  | Some e => Some e
  | None =>
  match completion w with
  | inl e => Some e
  | inr _ => None
  end end end end end end.

(** The one line a run of [analyze_repo] is to print. *)
Definition answer (w : world) : string :=
  match first_failure w, completion w with
  | Some e, _ => json_dumps_error (error_msg e)
  | None, inr content => sanitize content
  | None, inl e => json_dumps_error (error_msg e)
  end.

Definition is_clone (e : event) : bool :=
  match e with EvClone _ _ _ => true | _ => false end.

(** *** Worlds used as examples *)

Definition example_argv : list string :=
  ["cerebras_analyzer.py"; "https://example.com/repo.git"; "main"].

Definition example_tree : list entry :=
  [File "a.py" true (Some "print(1)");
   Dir "src" [File "index.js" true (Some "let x = 1")]].

Definition issues_answer : string :=
  "{" +:+ quoted "issues" +:+ ":[]}".

(** Everything works. *)
Definition world_ok : world :=
  World {[ "CEREBRAS_API_KEY" := "sk-test" ]} example_argv
    ["/"; "srv"; "app"] "0f3a" (fun _ => Resolved "192.0.2.1")
    (inr example_tree) (fun _ => None) (inr issues_answer) true ∅.

(** The branch does not exist. *)
Definition world_clone_fails : world :=
  World {[ "CEREBRAS_API_KEY" := "sk-test" ]} example_argv
    ["/"; "srv"; "app"] "0f3a" (fun _ => Resolved "192.0.2.1")
    (inl (Exn "GitCommandError" "Remote branch main not found" None))
    (fun _ => None) (inr issues_answer) true ∅.

(** Everything works, but the clone directory cannot be removed. *)
Definition world_locked : world :=
  World {[ "CEREBRAS_API_KEY" := "sk-test" ]} example_argv
    ["/"; "srv"; "app"] "0f3a" (fun _ => Resolved "192.0.2.1")
    (inr example_tree) (fun _ => None) (inr issues_answer) false ∅.

(** The branch does not exist and the partial clone cannot be removed. *)
Definition world_clone_fails_locked : world :=
  World {[ "CEREBRAS_API_KEY" := "sk-test" ]} example_argv
    ["/"; "srv"; "app"] "0f3a" (fun _ => Resolved "192.0.2.1")
    (inl (Exn "GitCommandError" "Remote branch main not found" None))
    (fun _ => None) (inr issues_answer) false ∅.

(** The model answers in prose, with blanks around it. *)
Definition world_prose : world :=
  World {[ "CEREBRAS_API_KEY" := "sk-test" ]} example_argv
    ["/"; "srv"; "app"] "0f3a" (fun _ => Resolved "192.0.2.1")
    (inr example_tree) (fun _ => None) (inr "  no issues found  ") true ∅.

(** No API key, and a token cap that is not a number. *)
Definition world_no_key_bad_cap : world :=
  World {[ "CEREBRAS_MAX_TOKENS" := "4k" ]} example_argv
    ["/"; "srv"; "app"] "0f3a" (fun _ => Resolved "192.0.2.1")
    (inr example_tree) (fun _ => None) (inr issues_answer) true ∅.


(** No API key, everything else at its default. *)
Definition world_no_key : world :=
  World ∅ example_argv
    ["/"; "srv"; "app"] "0f3a" (fun _ => Resolved "192.0.2.1")
    (inr example_tree) (fun _ => None) (inr issues_answer) true ∅.

Definition example_clone_dir : path :=
  ["/"; "srv"; "app"; "temp_clones"; "cerebra-0f3a"].

(** *** Reasoning about runs *)

(** [post m st Q]: running [m] from [st] ends in a result and a state
    that satisfy [Q]. *)
Definition post {A} (m : M A) (st : state)
    (Q : exn + A → state → Prop) : Prop :=
  Q (fst (m st)) (snd (m st)).

(** What holds of the state in which [analyze_repo] ends, for the
    arguments [repo_url] and [branch]. *)
Definition run_summary (w : world) (repo_url branch : string) (st : state)
  : Prop :=
  let p := clone_dir (cwd w) (uuid_hex w) in
  stdout st = [answer w]
  ∧ (length (List.filter is_clone (trace st)) ≤ 1)%nat
  ∧ (EvMkdir p ∈ trace st →
       last (trace st) = Some (EvRmtree p)
       ∧ (rmtree_ok w = true → p ∉ disk st))
  ∧ (∀ cause, existsb is_clone (trace st) = true →
       clone_from w = inl cause →
       first_failure w
       = Some (Exn "RuntimeError" ("Git clone failed: " +:+ exn_msg cause)
                 (Some cause))
       ∧ ∃ t, trace st = t ++ [EvMkdir p; EvClone repo_url branch p;
                               EvRmtree p]
              ∧ existsb is_clone t = false).

(** The configuration the example worlds with a key load. *)
Definition example_config : config :=
  Config "https://api.cerebras.net/v1" (Some "sk-test") "llama3.1-70b" 4000.

(** Induction over a tree, with the hypothesis for every child of a
    directory. *)
Section entry_induction.
Variable P : entry → Prop.
Hypothesis P_file : ∀ n regular text, P (File n regular text).
Hypothesis P_dir : ∀ n children, Forall P children → P (Dir n children).

Fixpoint entry_nested_ind (e : entry) : P e :=
  match e with
  | File n regular text => P_file n regular text
  | Dir n children =>
      P_dir n children
        ((fix all (l : list entry) : Forall P l :=
            match l with
            | [] => List.Forall_nil P
            | x :: l' => List.Forall_cons P x l' (entry_nested_ind x) (all l')
            end) children)
  end.
End entry_induction.

(** *** Vocabulary of the further properties *)

(** [read_text] returns a text. *)
Definition readable (f : fsnode) : bool :=
  match read_text f with Some _ => true | None => false end.

(** The note of the prompt loop over [files]. *)
Definition build_note (files : list fsnode) : option string :=
  snd (body_loop files "").

Definition is_post (e : event) : bool :=
  match e with EvPost _ => true | _ => false end.

(** What [analyze_repo] does to the outside and writes to stderr, in the
    state [st] it ends in. *)
Definition run_effects (w : world) (cfg : config) (st : state) : Prop :=
  let p := clone_dir (cwd w) (uuid_hex w) in
  let base := Path.joinpath (cwd w) "temp_clones" in
  let url := CEREBRAS_BASE_URL cfg +:+ "/chat/completions" in
  (∀ q, q ≠ base → ¬ p `prefix_of` q → q ∈ disk st ↔ q ∈ disk0 w)
  ∧ (p ∈ disk0 w →
       p ∈ disk st ∧ existsb is_clone (trace st) = false
       ∧ EvRmtree p ∉ trace st)
  ∧ (∀ u, EvPost u ∈ trace st →
       u = url ∧ (∃ tree, clone_from w = inr tree)
       ∧ fault w Collecting = None ∧ fault w Building = None)
  ∧ (length (List.filter is_post (trace st)) ≤ 1)%nat
  ∧ (first_failure w = None → EvPost url ∈ trace st)
  ∧ (∀ e, first_failure w = Some e →
       error_msg e +:+ Py.nl ∈ stderr st)
  ∧ ((∀ e, resolve w "github.com" ≠ DnsRaises e) →
     (∀ e, resolve w "api.cerebras.net" ≠ DnsRaises e) →
     base ∈ disk st).

(** Only the repository URL is given. *)
Definition world_no_branch : world :=
  World {[ "CEREBRAS_API_KEY" := "sk-test" ]}
    ["cerebras_analyzer.py"; "https://example.com/repo.git"]
    ["/"; "srv"; "app"] "0f3a" (fun _ => Resolved "192.0.2.1")
    (inr example_tree) (fun _ => None) (inr issues_answer) true ∅.

(** Neither host resolves, everything else works. *)
Definition world_dns_down : world :=
  World {[ "CEREBRAS_API_KEY" := "sk-test" ]} example_argv
    ["/"; "srv"; "app"] "0f3a"
    (fun _ => Gaierror "[Errno -2] Name or service not known")
    (inr example_tree) (fun _ => None) (inr issues_answer) true ∅.


(** The endpoint answers 500. *)
Definition world_http_500 : world :=
  World {[ "CEREBRAS_API_KEY" := "sk-test" ]} example_argv
    ["/"; "srv"; "app"] "0f3a" (fun _ => Resolved "192.0.2.1")
    (inr example_tree) (fun _ => None)
    (inl (Exn "HTTPStatusError" "Server error '500 Internal Server Error'"
            None))
    true {[ ["/"; "srv"; "app"; "data"] ]}.

(** A character between space and tilde. *)
Definition printable (c : ascii) : bool :=
  let n := nat_of_ascii c in ((32 <=? n) && (n <=? 126))%nat.

Fixpoint all_chars (f : ascii → bool) (s : string) : bool :=
  match s with
  | String c s' => f c && all_chars f s'
  | EmptyString => true
  end.



(** The text does not start with a blank. *)
Definition starts_clean (s : string) : Prop :=
  match s with
  | String c _ => Py.isspace c = false
  | EmptyString => True
  end.

(** * Properties *)

(** ** Strings *)

Lemma app_empty (b : string) : "" +:+ b = b.
Proof. reflexivity. Qed.

Lemma app_cons (c : ascii) (a b : string) :
  String c a +:+ b = String c (a +:+ b).
Proof. reflexivity. Qed.

Lemma len_app (a b : string) : Py.len (a +:+ b) = Py.len a + Py.len b.
Proof.
  unfold Py.len. induction a as [|c a IH].
  - rewrite app_empty. cbn [String.length]. lia.
  - rewrite app_cons. cbn [String.length]. rewrite !Nat2Z.inj_succ. lia.
Qed.

Lemma len_nonneg (a : string) : 0 <= Py.len a.
Proof. unfold Py.len. lia. Qed.

Lemma substring_length_le (s : string) (n m : nat) :
  (String.length (String.substring n m s) <= m)%nat.
Proof.
  revert n m. induction s as [|c s IH]; intros [|n] [|m]; simpl; try lia.
  - specialize (IH 0%nat m). lia.
  - apply (IH n 0%nat).
  - apply (IH n (S m)).
Qed.

Lemma slice_to_len (s : string) (cap : Z) :
  0 <= cap → Py.len (Py.slice_to s cap) <= cap.
Proof.
  intros Hcap. unfold Py.slice_to, Py.slice, Py.clamp.
  replace (0 <? 0) with false by reflexivity.
  replace (cap <? 0) with false by (symmetry; apply Z.ltb_ge; lia).
  pose proof (len_nonneg s) as Hs.
  pose proof (substring_length_le s (Z.to_nat (Z.min 0 (Py.len s)))
    (Z.to_nat (Z.min cap (Py.len s) - Z.min 0 (Py.len s)))) as Hle.
  unfold Py.len at 1. lia.
Qed.

Lemma get_Some_lt (s : string) (k : nat) (c : ascii) :
  String.get k s = Some c → (k < String.length s)%nat.
Proof.
  revert k. induction s as [|d s IH]; intros [|k]; simpl; try done; try lia.
  intros H. apply IH in H. lia.
Qed.

Lemma prefix_char (c d : ascii) (s : string) :
  String.prefix (String c "") (String d s) = bool_decide (c = d).
Proof.
  simpl. destruct (ascii_dec c d) as [->|Hne].
  - rewrite bool_decide_eq_true_2 by done. by destruct s.
  - by rewrite bool_decide_eq_false_2.
Qed.

Lemma find_opt_first (c : ascii) (s : string) (i : nat) :
  Py.find_opt (String c "") s = Some i → first_at c s i.
Proof.
  revert i. induction s as [|d s IH]; intros i; [done|].
  cbn [Py.find_opt]. rewrite prefix_char. case_bool_decide as Hcd.
  - intros [= <-]. subst d. split; [done|]. intros k Hk. lia.
  - destruct (Py.find_opt (String c "") s) as [i'|] eqn:Hf; [|done].
    intros [= <-]. destruct (IH i' eq_refl) as [Hget Hmin].
    split; [done|]. intros [|k] Hk; simpl.
    + congruence.
    + apply Hmin. lia.
Qed.

Lemma find_opt_none (c : ascii) (s : string) :
  Py.find_opt (String c "") s = None → ¬ occurs c s.
Proof.
  induction s as [|d s IH]; intros Hf [k Hk].
  - by destruct k.
  - cbn [Py.find_opt] in Hf. rewrite prefix_char in Hf.
    case_bool_decide as Hcd; [done|].
    destruct (Py.find_opt (String c "") s) eqn:Hf'; [done|].
    destruct k as [|k]; simpl in Hk; [congruence|].
    apply IH; [done|]. by exists k.
Qed.

Lemma rfind_opt_last (c : ascii) (s : string) (j : nat) :
  Py.rfind_opt (String c "") s = Some j → last_at c s j.
Proof.
  revert j. induction s as [|d s IH]; intros j; [done|].
  cbn [Py.rfind_opt]. rewrite prefix_char.
  destruct (Py.rfind_opt (String c "") s) as [j'|] eqn:Hf.
  - intros [= <-]. destruct (IH j' eq_refl) as [Hget Hmax].
    split; [done|]. intros [|k] Hk; [lia|]. simpl. apply Hmax. lia.
  - case_bool_decide as Hcd; [|done]. intros [= <-]. subst d.
    split; [done|]. intros [|k] Hk; [lia|]. simpl. intros Hget.
    clear IH. revert k Hk Hget Hf. generalize s. clear.
    induction s as [|d s IH]; intros k _ Hget Hf; [by destruct k|].
    cbn [Py.rfind_opt] in Hf. rewrite prefix_char in Hf.
    destruct (Py.rfind_opt (String c "") s) eqn:Hf'; [done|].
    case_bool_decide; [done|].
    destruct k as [|k]; simpl in Hget; [congruence|].
    apply (IH k); [lia|done..].
Qed.

Lemma rfind_opt_none (c : ascii) (s : string) :
  Py.rfind_opt (String c "") s = None → ¬ occurs c s.
Proof.
  induction s as [|d s IH]; intros Hf [k Hk].
  - by destruct k.
  - cbn [Py.rfind_opt] in Hf. rewrite prefix_char in Hf.
    destruct (Py.rfind_opt (String c "") s) eqn:Hf'; [done|].
    case_bool_decide as Hcd; [done|].
    destruct k as [|k]; simpl in Hk; [congruence|].
    apply IH; [done|]. by exists k.
Qed.

(** A slice between two positions of the string is the plain substring. *)
Lemma slice_between (s : string) (i j : nat) :
  (i < String.length s)%nat → (j < String.length s)%nat →
  Py.slice s (Z.of_nat i) (Z.of_nat j + 1)
  = String.substring i (j + 1 - i) s.
Proof.
  intros Hi Hj. unfold Py.slice, Py.clamp, Py.len.
  replace (Z.of_nat i <? 0) with false by (symmetry; apply Z.ltb_ge; lia).
  replace (Z.of_nat j + 1 <? 0) with false by (symmetry; apply Z.ltb_ge; lia).
  f_equal; lia.
Qed.

(** ** Sanitization *)

Lemma sanitize_unfenced (content : string) :
  Py.startswith (Py.strip content) fence = false →
  sanitize content = Py.strip content.
Proof. unfold sanitize. by intros ->. Qed.

Lemma sanitize_no_pair (content : string) :
  ¬ occurs "{" (Py.strip content) ∨ ¬ occurs "}" (Py.strip content) →
  sanitize content = Py.strip content.
Proof.
  intros Hno. unfold sanitize, Py.find, Py.rfind.
  destruct (Py.startswith _ fence); [|done].
  destruct (Py.find_opt "{" (Py.strip content)) as [i|] eqn:Hi; [|done].
  destruct (Py.rfind_opt "}" (Py.strip content)) as [j|] eqn:Hj;
    [|by rewrite andb_false_r].
  apply find_opt_first in Hi as [Hi _]. apply rfind_opt_last in Hj as [Hj _].
  destruct Hno as [Hno|Hno]; exfalso; apply Hno; by eexists.
Qed.

Lemma sanitize_pair (content : string) :
  Py.startswith (Py.strip content) fence = true →
  occurs "{" (Py.strip content) → occurs "}" (Py.strip content) →
  ∃ i j, first_at "{" (Py.strip content) i
         ∧ last_at "}" (Py.strip content) j
         ∧ sanitize content
           = String.substring i (j + 1 - i) (Py.strip content).
Proof.
  intros Hfence Hopen Hclose. unfold sanitize, Py.find, Py.rfind.
  rewrite Hfence.
  destruct (Py.find_opt "{" (Py.strip content)) as [i|] eqn:Hi;
    [|by apply find_opt_none in Hi].
  destruct (Py.rfind_opt "}" (Py.strip content)) as [j|] eqn:Hj;
    [|by apply rfind_opt_none in Hj].
  apply find_opt_first in Hi. apply rfind_opt_last in Hj.
  exists i, j. split_and!; [done..|].
  cbn [Py.index_or_minus1].
  replace (Z.of_nat i =? -1) with false by (symmetry; apply Z.eqb_neq; lia).
  replace (Z.of_nat j =? -1) with false by (symmetry; apply Z.eqb_neq; lia).
  cbn [negb andb]. apply slice_between.
  - eapply get_Some_lt, Hi.
  - eapply get_Some_lt, Hj.
Qed.

(** C6.  A response that, once trimmed, opens with a code fence and holds
    a [{] and a [}] is cut down to the substring that runs from its first
    [{] to its last [}] (empty when that [}] comes before the [{]); the
    fenced answer of the specification's example comes out as the bare
    object. *)
Theorem sanitize_fenced_braces :
  (∀ content,
     Py.startswith (Py.strip content) fence = true →
     occurs "{" (Py.strip content) → occurs "}" (Py.strip content) →
     ∃ i j, first_at "{" (Py.strip content) i
            ∧ last_at "}" (Py.strip content) j
            ∧ sanitize content
              = String.substring i (j + 1 - i) (Py.strip content))
  ∧ sanitize fenced_example = bare_example.
Proof. split; [exact sanitize_pair | reflexivity]. Qed.

Lemma sanitize_fenced_braces_witness :
  ∃ i j, first_at "{" (Py.strip fenced_example) i
         ∧ last_at "}" (Py.strip fenced_example) j
         ∧ sanitize fenced_example
           = String.substring i (j + 1 - i) (Py.strip fenced_example).
Proof.
  apply (proj1 sanitize_fenced_braces fenced_example).
  - reflexivity.
  - exists 8%nat. reflexivity.
  - exists 20%nat. reflexivity.
Defined.

(** C7, as the code has it.  When the trimmed response lacks a [{] or
    lacks a [}], or does not open with a fence, sanitization returns the
    response with its leading and trailing whitespace removed. *)
Theorem sanitize_passes_trimmed (content : string) :
  ¬ occurs "{" (Py.strip content) ∨ ¬ occurs "}" (Py.strip content)
  ∨ Py.startswith (Py.strip content) fence = false →
  sanitize content = Py.strip content.
Proof.
  intros [H|[H|H]].
  - apply sanitize_no_pair. by left.
  - apply sanitize_no_pair. by right.
  - by apply sanitize_unfenced.
Qed.

(** ** Source Collector *)

Lemma walk_below (e : entry) :
  ∀ root p, p ∈ walk root e → root `prefix_of` parts p.
Proof.
  induction e as [n regular text|n children IH] using entry_nested_ind;
    intros root p; cbn [walk].
  - intros ->%list_elem_of_singleton. by apply prefix_app_r.
  - intros [->|Hin]%elem_of_cons; [by apply prefix_app_r|].
    apply list_elem_of_In, in_flat_map in Hin as (c & Hc & Hp).
    apply list_elem_of_In in Hc, Hp.
    rewrite Forall_forall in IH. specialize (IH c Hc _ _ Hp).
    etrans; [|exact IH]. by apply prefix_app_r.
Qed.

Lemma rglob_below (root : path) (tree : list entry) (p : fsnode) :
  p ∈ rglob root tree → root `prefix_of` parts p.
Proof.
  intros (c & _ & Hp)%list_elem_of_In%in_flat_map.
  eapply walk_below. by apply list_elem_of_In.
Qed.

Lemma any_skip_true (p : path) :
  any_skip p = true ↔ ∃ skip, skip ∈ skip_dirs ∧ skip ∈ p.
Proof.
  unfold any_skip. rewrite existsb_exists. split.
  - intros (x & Hx & Hin). exists x.
    split; [by apply list_elem_of_In|by apply bool_decide_eq_true in Hin].
  - intros (x & Hx & Hin). exists x.
    split; [by apply list_elem_of_In|by apply bool_decide_eq_true].
Qed.

Lemma any_skip_false (p : path) :
  any_skip p = false ↔ ∀ skip, skip ∈ skip_dirs → skip ∉ p.
Proof.
  rewrite <-not_true_iff_false, any_skip_true. split.
  - intros Hno skip Hskip Hin. apply Hno. eauto.
  - intros Hno (skip & Hskip & Hin). by apply (Hno skip).
Qed.

Lemma collect_loop (l acc : list fsnode) :
  fold_left collect_step l acc = acc ++ List.filter collected l.
Proof.
  revert acc. induction l as [|p l IH]; intros acc; cbn [fold_left List.filter].
  - by rewrite app_nil_r.
  - rewrite IH. unfold collect_step, collected.
    destruct (any_skip (parts p)); [done|].
    destruct (is_file p && source_ext (parts p)) eqn:Hk;
      cbn [negb andb]; rewrite ?Hk; [|done].
    by rewrite <-app_assoc.
Qed.

Lemma collect_is_filter (root : path) (tree : list entry) :
  collect_source_files root tree = List.filter collected (rglob root tree).
Proof. unfold collect_source_files. by rewrite collect_loop. Qed.

Lemma source_exts_listed (x : string) :
  x ∈ SOURCE_EXTS
  ↔ x ∈ [".js"; ".ts"; ".jsx"; ".tsx"; ".py"; ".java"; ".go"; ".c"; ".cpp"].
Proof. unfold SOURCE_EXTS. set_solver. Qed.

(** C3.  The collector returns, in walk order, exactly the walked paths
    that are regular files, whose extension lower-cased is one of the nine
    listed, and none of whose parts is one of the six skipped names. *)
Theorem collect_source_files_exact (root : path) (tree : list entry) :
  collect_source_files root tree = List.filter collected (rglob root tree)
  ∧ ∀ p, p ∈ collect_source_files root tree
       ↔ p ∈ rglob root tree
         ∧ is_file p = true
         ∧ Py.lower (Path.suffix (parts p))
           ∈ [".js"; ".ts"; ".jsx"; ".tsx"; ".py"; ".java"; ".go"; ".c";
              ".cpp"]
         ∧ ∀ skip,
             skip ∈ ["node_modules"; ".git"; "dist"; "build"; "venv";
                     "__pycache__"]
             → skip ∉ parts p.
Proof.
  split; [apply collect_is_filter|]. intros p.
  rewrite collect_is_filter, <-source_exts_listed.
  rewrite list_elem_of_In, filter_In, <-list_elem_of_In.
  unfold collected, source_ext.
  rewrite !andb_true_iff, negb_true_iff, any_skip_false, bool_decide_eq_true.
  unfold skip_dirs. naive_solver.
Qed.

Example collect_upper_case_extension :
  parts <$> collect_source_files ["/"; "w"]
              [File "Main.PY" true None; File "notes.txt" true None;
               Dir "dist" [File "x.js" true None]; File "lib.py" false None]
  = [["/"; "w"; "Main.PY"]].
Proof. reflexivity. Qed.

(** C9.  The skipped names are looked up in all parts of the absolute
    path: when the working directory has a part named like one of them,
    nothing is collected from any clone made below it. *)
Theorem collect_nothing_below_skipped_cwd
    (cwd : path) (hex skip : string) (tree : list entry) :
  skip ∈ skip_dirs → skip ∈ cwd →
  collect_source_files (clone_dir cwd hex) tree = [].
Proof.
  intros Hskip Hcwd. rewrite collect_is_filter.
  destruct (List.filter collected (rglob (clone_dir cwd hex) tree))
    as [|p l] eqn:Hf; [done|exfalso].
  assert (In p (List.filter collected (rglob (clone_dir cwd hex) tree)))
    as [Hin Hkeep]%filter_In by (rewrite Hf; by left).
  apply list_elem_of_In, rglob_below in Hin as [below Hparts].
  assert (any_skip (parts p) = true) as Hany.
  { apply any_skip_true. exists skip. split; [done|].
    rewrite Hparts. unfold clone_dir, Path.joinpath.
    rewrite !elem_of_app. auto. }
  unfold collected in Hkeep. by rewrite Hany in Hkeep.
Qed.

Lemma collect_nothing_below_skipped_cwd_witness :
  collect_source_files (clone_dir ["/"; "home"; "ci"; "build"] "0f3a")
    [File "app.py" true (Some "print(1)");
     Dir "src" [File "index.js" true (Some "x")]]
  = [].
Proof.
  apply (collect_nothing_below_skipped_cwd _ _ "build").
  - unfold skip_dirs. set_solver.
  - set_solver.
Defined.

(** ** Prompt Builder *)

Lemma app_assoc_str (a b c : string) : (a +:+ b) +:+ c = a +:+ (b +:+ c).
Proof.
  induction a as [|x a IH]; [done|]. rewrite !app_cons. by rewrite IH.
Qed.

Lemma app_empty_r (a : string) : a +:+ "" = a.
Proof. induction a as [|x a IH]; [done|]. rewrite app_cons. by rewrite IH. Qed.

Lemma body_loop_blocks (files : list fsnode) :
  ∀ body, ∃ k,
    fst (body_loop files body)
    = body +:+ concat_str (take k (readable_blocks files))
    ∧ ∀ next, readable_blocks files !! k = Some next →
        Py.len (body +:+ concat_str (take k (readable_blocks files)))
        + Py.len next > max_chars.
Proof.
  induction files as [|f rest IH]; intros body.
  - exists 0%nat. cbn. by rewrite app_empty_r.
  - cbn [body_loop readable_blocks omap list_omap].
    fold (readable_blocks rest).
    destruct (read_text f) as [content|]; cbn [fmap option_fmap option_map].
    + destruct (Py.len body + Py.len (block (parts f) content) >? max_chars)
        eqn:Hcmp.
      * exists 0%nat. cbn [take concat_str foldr fst lookup list_lookup].
        rewrite app_empty_r. split; [done|]. intros next [= <-].
        apply Z.gtb_gt in Hcmp. lia.
      * destruct (IH (body +:+ block (parts f) content)) as (k & Hk & Hnext).
        exists (S k). cbn [take concat_str foldr lookup list_lookup].
        fold (concat_str (take k (readable_blocks rest))).
        rewrite <-app_assoc_str. split; [done|]. exact Hnext.
    + apply IH.
Qed.

Lemma body_loop_bounded (files : list fsnode) :
  ∀ body, Py.len body <= max_chars →
    Py.len (fst (body_loop files body)) <= max_chars.
Proof.
  induction files as [|f rest IH]; intros body Hbody; [done|].
  cbn [body_loop]. destruct (read_text f) as [content|]; [|by apply IH].
  destruct (Py.len body + Py.len (block (parts f) content) >? max_chars)
    eqn:Hcmp; [done|].
  apply IH. rewrite len_app.
  destruct (Z.gtb_spec (Py.len body + Py.len (block (parts f) content))
              max_chars); [done|lia].
Qed.

(** C2.  The body never exceeds 30000 characters; it is made of whole
    blocks, those of the first [k] readable files, and the block that
    comes next, if any, is the one that would have passed the budget; a
    block holds at most the first 3000 characters of its file; the prompt
    is the header, a newline and that body. *)
Theorem build_prompt_body_budget (files : list fsnode) :
  Py.len (build_body files) <= 30000
  ∧ (∃ k, build_body files = concat_str (take k (readable_blocks files))
          ∧ ∀ next, readable_blocks files !! k = Some next →
              Py.len (build_body files) + Py.len next > 30000)
  ∧ (∀ f content, f ∈ files → read_text f = Some content →
       Py.len (Py.slice_to content 3000) <= 3000
       ∧ block (parts f) content
         = Py.nl +:+ "--- FILE: " +:+ display_path (parts f) +:+ " ---"
           +:+ Py.nl +:+ Py.slice_to content 3000 +:+ Py.nl)
  ∧ ∀ repo_url branch prefix,
      fst (build_prompt files repo_url branch prefix)
      = intro repo_url branch prefix +:+ Py.nl +:+ build_body files.
Proof.
  split_and!.
  - apply body_loop_bounded. done.
  - destruct (body_loop_blocks files "") as (k & Hk & Hnext).
    exists k. unfold build_body. rewrite Hk, app_empty.
    split; [done|]. intros next Hn. specialize (Hnext next Hn).
    by rewrite app_empty in Hnext.
  - intros f content _ _. split; [by apply slice_to_len|done].
  - intros repo_url branch prefix. unfold build_prompt, build_body.
    by destruct (body_loop files "").
Qed.

Lemma build_prompt_body_budget_witness :
  Py.len (build_body ten_files) <= 30000
  ∧ String.eqb (build_body ten_files)
       (concat_str (take 9 (readable_blocks ten_files))) = true
  ∧ (Py.len (build_body ten_files) =? 27189) = true.
Proof.
  split; [exact (proj1 (build_prompt_body_budget ten_files))|].
  split; vm_compute; reflexivity.
Defined.

Lemma marker_index_first (pre : path) (m : string) (rest : path) (i : Z) :
  unmarked pre → Py.contains "cerebra-" m = true →
  marker_index (pre ++ m :: rest) i = i + Z.of_nat (length pre) + 1.
Proof.
  intros Hpre Hm. revert i.
  induction Hpre as [|x pre Hx _ IH]; intros i; cbn [app marker_index].
  - rewrite Hm. cbn [length]. lia.
  - rewrite Hx, IH. cbn [length]. lia.
Qed.

Lemma marker_index_within (l1 l2 : path) (i : Z) :
  Exists (fun x => Py.contains "cerebra-" x = true) l1 →
  i < marker_index (l1 ++ l2) i <= i + Z.of_nat (length l1).
Proof.
  intros Hex. revert i.
  induction l1 as [|x l1 IH]; intros i; [by apply Exists_nil in Hex|].
  cbn [app marker_index length].
  destruct (Py.contains "cerebra-" x) eqn:Hx; [lia|].
  apply Exists_cons in Hex as [Hex|Hex]; [congruence|].
  specialize (IH Hex (i + 1)). lia.
Qed.

Lemma contains_marker (hex : string) :
  Py.contains "cerebra-" ("cerebra-" +:+ hex) = true.
Proof. by destruct hex. Qed.

Lemma display_path_first (pre : path) (m : string) (rest : path) :
  unmarked pre → Py.contains "cerebra-" m = true →
  display_path (pre ++ m :: rest) = Path.str rest.
Proof.
  intros Hpre Hm. unfold display_path.
  rewrite marker_index_first by done.
  replace (0 + Z.of_nat (length pre) + 1 =? -1) with false
    by (symmetry; apply Z.eqb_neq; lia).
  cbn [negb].
  replace (Z.to_nat (0 + Z.of_nat (length pre) + 1))
    with (length (pre ++ [m])) by (rewrite length_app; cbn [length]; lia).
  by rewrite (cons_middle m pre rest), app_assoc, drop_app_length.
Qed.

(** C10, as the code has it.  The label of a file is its path below the
    first part that contains "cerebra-".  In a run that part is the clone
    directory itself when no part of the working directory contains
    "cerebra-": every file, also one below a repository directory whose
    name contains "cerebra-", is then labelled by its path inside the
    repository.  When a part of the working directory contains "cerebra-",
    the label starts below that part and so runs through the temporary
    directories. *)
Theorem display_path_below_first_marker :
  (∀ pre m rest,
     unmarked pre → Py.contains "cerebra-" m = true →
     display_path (pre ++ m :: rest) = Path.str rest)
  ∧ (∀ cwd hex rel,
       unmarked cwd →
       display_path (clone_dir cwd hex ++ rel) = Path.str rel)
  ∧ (∀ above m below hex rel,
       unmarked above → Py.contains "cerebra-" m = true →
       display_path (clone_dir (above ++ m :: below) hex ++ rel)
       = Path.str (below ++ ["temp_clones"; "cerebra-" +:+ hex] ++ rel)).
Proof.
  split_and!.
  - exact display_path_first.
  - intros cwd hex rel Hcwd. unfold clone_dir, Path.joinpath.
    rewrite <-(app_assoc _ [_] rel). cbn [app].
    apply display_path_first; [|apply contains_marker].
    apply Forall_app. split; [done|]. by repeat constructor.
  - intros above m below hex rel Habove Hm. unfold clone_dir, Path.joinpath.
    rewrite <-!app_assoc. cbn [app]. by apply display_path_first.
Qed.

Lemma display_path_below_first_marker_witness :
  display_path
    (clone_dir ["/"; "srv"; "app"] "0f3a" ++ ["cerebra-tools"; "x.py"])
  = Path.str ["cerebra-tools"; "x.py"]
  ∧ display_path
      (clone_dir (["/"; "srv"] ++ "cerebra-backend" :: ["run"]) "0f3a"
       ++ ["src"; "a.py"])
    = Path.str (["run"] ++ ["temp_clones"; "cerebra-" +:+ "0f3a"]
                ++ ["src"; "a.py"]).
Proof.
  destruct display_path_below_first_marker as (_ & Hclone & Hcwd). split.
  - apply Hclone. by repeat constructor.
  - apply Hcwd; [by repeat constructor|reflexivity].
Defined.

(** C10, against the claim as stated.  The label never starts just below
    a directory of the repository: the index found by the loop is at most
    the length of the clone directory's path.  A file below a repository
    directory named "cerebra-tools" keeps that directory in its label. *)
Lemma display_path_not_below_subdirectory :
  (¬ ∃ cwd hex above sub rest,
       Py.contains "cerebra-" sub = true
       ∧ marker_index (clone_dir cwd hex ++ above ++ sub :: rest) 0
         = Z.of_nat (length (clone_dir cwd hex ++ above ++ [sub])))
  ∧ display_path
      (clone_dir ["/"; "srv"; "app"] "0f3a" ++ ["cerebra-tools"; "x.py"])
    = "cerebra-tools/x.py".
Proof.
  split; [|reflexivity].
  intros (cwd & hex & above & sub & rest & _ & Hidx).
  pose proof (marker_index_within (clone_dir cwd hex)
                (above ++ sub :: rest) 0) as Hle.
  rewrite Hidx in Hle. rewrite !length_app in Hle. cbn [length] in Hle.
  assert (Exists (fun x => Py.contains "cerebra-" x = true)
            (clone_dir cwd hex)) as Hex.
  { unfold clone_dir, Path.joinpath. apply Exists_app. right.
    apply Exists_cons_hd, contains_marker. }
  specialize (Hle Hex). lia.
Qed.

(** ** Runs of the pipeline *)

Lemma post_ret {A} (a : A) st Q : Q (inr a) st → post (mret a) st Q.
Proof. done. Qed.

Lemma post_raise {A} (e : exn) st (Q : exn + A → state → Prop) :
  Q (inl e) st → post (raise e) st Q.
Proof. done. Qed.

Lemma post_bind {A B} (m : M A) (k : A → M B) st Q :
  post m st (fun r st1 =>
    match r with inr a => post (k a) st1 Q | inl e => Q (inl e) st1 end) →
  post (m ≫= k) st Q.
Proof. unfold post, mbind, M_bind. by destruct (m st) as [[e|a] st1]. Qed.

Lemma post_try_except {A} (body : M A) h st Q :
  post body st (fun r st1 =>
    match r with inl e => post (h e) st1 Q | inr a => Q (inr a) st1 end) →
  post (try_except body h) st Q.
Proof. unfold post, try_except. by destruct (body st) as [[e|a] st1]. Qed.

Lemma post_try_finally {A} (body : M A) cleanup st Q :
  post body st (fun r st1 =>
    post cleanup st1 (fun r2 st2 =>
      match r2 with inr _ => Q r st2 | inl e => Q (inl e) st2 end)) →
  post (try_finally body cleanup) st Q.
Proof.
  unfold post, try_finally. destruct (body st) as [r st1]. cbn.
  by destruct (cleanup st1) as [[e|[]] st2].
Qed.

Lemma post_print s st Q :
  Q (inr ()) (State (stdout st ++ [s]) (stderr st) (disk st) (trace st)
                (repo_path st)) →
  post (print s) st Q.
Proof. done. Qed.

Lemma post_eprint s st Q :
  Q (inr ()) (State (stdout st) (stderr st ++ [s]) (disk st) (trace st)
                (repo_path st)) →
  post (eprint s) st Q.
Proof. done. Qed.

Lemma post_emit e st Q :
  Q (inr ()) (State (stdout st) (stderr st) (disk st) (trace st ++ [e])
                (repo_path st)) →
  post (emit e) st Q.
Proof. done. Qed.

Lemma post_set_disk d st Q :
  Q (inr ()) (State (stdout st) (stderr st) d (trace st) (repo_path st)) →
  post (set_disk d) st Q.
Proof. done. Qed.

Lemma post_get_disk st Q : Q (inr (disk st)) st → post get_disk st Q.
Proof. done. Qed.

Lemma post_set_repo_path p st Q :
  Q (inr ()) (State (stdout st) (stderr st) (disk st) (trace st) p) →
  post (set_repo_path p) st Q.
Proof. done. Qed.

Lemma post_get_repo_path st Q :
  Q (inr (repo_path st)) st → post get_repo_path st Q.
Proof. done. Qed.

(** A DNS check either raises what the resolver raises or goes on after
    one line on stderr. *)
Lemma post_check_dns w h st Q :
  (∀ e, resolve w h = DnsRaises e →
     Q (inl e) (State (stdout st) (stderr st) (disk st)
                  (trace st ++ [EvResolve h]) (repo_path st))) →
  (∀ ok line, (∀ e, resolve w h ≠ DnsRaises e) →
     Q (inr ok) (State (stdout st) (stderr st ++ [line]) (disk st)
                   (trace st ++ [EvResolve h]) (repo_path st))) →
  post (check_dns w h) st Q.
Proof.
  intros Hraise Hok. unfold check_dns. apply post_bind, post_emit.
  destruct (resolve w h) as [addr|msg|e] eqn:Hr.
  - apply post_bind, post_eprint, post_ret, Hok. congruence.
  - apply post_bind, post_eprint, post_ret, Hok. congruence.
  - by apply post_raise, Hraise.
Qed.

(** [mkdir(exist_ok=True)] creates the directory unless it is there. *)
Lemma post_mkdir_exist_ok (p : path) st Q :
  (∀ t d, (t = [] ∨ t = [EvMkdir p]) →
          (∀ q, q ≠ p → q ∈ d ↔ q ∈ disk st) →
     Q (inr ()) (State (stdout st) (stderr st) d (trace st ++ t)
                   (repo_path st))) →
  post (mkdir p true) st Q.
Proof.
  intros HQ. unfold mkdir. apply post_bind, post_get_disk.
  destruct (bool_decide (p ∈ disk st)) eqn:Hin.
  - apply post_ret. specialize (HQ [] (disk st)).
    rewrite app_nil_r in HQ. destruct st. apply HQ; auto.
  - apply post_bind, post_emit, post_set_disk. cbn.
    apply HQ; [auto|]. intros q Hq. set_solver.
Qed.

Lemma base_ne_clone (cwd : path) (hex : string) :
  Path.joinpath cwd "temp_clones" ≠ clone_dir cwd hex.
Proof.
  unfold clone_dir, Path.joinpath. intros H%(f_equal length).
  rewrite !length_app in H. cbn [length] in H. lia.
Qed.

Lemma not_in_filtered (p : path) (d : gset path) :
  p ∉ filter (fun q => ¬ p `prefix_of` q) d.
Proof. rewrite elem_of_filter. naive_solver. Qed.

(** One step of the run, by the rule for the head of the program. *)
Ltac wp_step :=
  lazymatch goal with
  | |- post (mbind _ _) _ _ => apply post_bind
  | |- post (mret _) _ _ => apply post_ret
  | |- post (raise _) _ _ => apply post_raise
  | |- post (try_except _ _) _ _ => apply post_try_except
  | |- post (try_finally _ _) _ _ => apply post_try_finally
  | |- post (print _) _ _ => apply post_print
  | |- post (eprint _) _ _ => apply post_eprint
  | |- post (emit _) _ _ => apply post_emit
  | |- post (set_disk _) _ _ => apply post_set_disk
  | |- post get_disk _ _ => apply post_get_disk
  | |- post (set_repo_path _) _ _ => apply post_set_repo_path
  | |- post get_repo_path _ _ => apply post_get_repo_path
  | |- post (match ?x with _ => _ end) _ _ => destruct x eqn:?
  | |- post (analyze_repo _ _ _ _ _) _ _ => unfold analyze_repo
  | |- post (analyze_body _ _ _ _ _) _ _ => unfold analyze_body
  | |- post (analyze_handler _) _ _ => unfold analyze_handler
  | |- post (analyze_cleanup _) _ _ => unfold analyze_cleanup
  | |- post (shallow_clone _ _ _) _ _ => unfold shallow_clone
  | |- post (git_clone _ _ _ _) _ _ => unfold git_clone
  | |- post (check_dns _ _) _ _ =>
      apply post_check_dns; [intros ? ?|intros ? ? ?]
  | |- post (meet _ _) _ _ => unfold meet
  | |- post (post_completion _ _) _ _ => unfold post_completion
  | |- post (eprint_note _) _ _ => unfold eprint_note
  | |- post (mkdir _ true) _ _ => apply post_mkdir_exist_ok; intros ? ? ? ?
  | |- post (mkdir _ _) _ _ => unfold mkdir
  | |- post (rmtree _ _) _ _ => unfold rmtree
  | |- post (exists_ _) _ _ => unfold exists_
  end; cbn [stdout stderr disk trace repo_path].

(** Rewrite what the world answers with the facts the run has met. *)
Ltac use_oracles :=
  repeat match goal with
  | H : resolve ?w ?h = _ |- context [resolve ?w ?h] => rewrite H
  | H : clone_from ?w = _ |- context [clone_from ?w] => rewrite H
  | H : fault ?w ?s = _ |- context [fault ?w ?s] => rewrite H
  | H : completion ?w = _ |- context [completion ?w] => rewrite H
  | H : ∀ e, resolve ?w ?h ≠ DnsRaises e |- context [resolve ?w ?h] =>
      let E := fresh in
      destruct (resolve w h) eqn:E; [| |exfalso; by eapply H]
  | H : ∀ q, q ≠ _ → q ∈ ?d ↔ q ∈ ?d0, Hp : ?p ∈ ?d
    |- context [bool_decide (?p ∈ ?d0)] =>
      rewrite (bool_decide_eq_true_2 (p ∈ d0)) by (by apply H)
  | H : ∀ q, q ≠ _ → q ∈ ?d ↔ q ∈ ?d0, Hp : ?p ∉ ?d
    |- context [bool_decide (?p ∈ ?d0)] =>
      rewrite (bool_decide_eq_false_2 (p ∈ d0)) by (by rewrite <-H)
  end.

(** [H] puts an event into a list that does not hold it. *)
Ltac no_member H :=
  repeat (apply elem_of_cons in H as [H|H];
          [first [discriminate | injection H; intros; congruence]|]);
  by apply elem_of_nil in H.

Ltac summary_stdout :=
  f_equal; unfold answer, first_failure;
  match goal with p := clone_dir _ _ |- _ => fold p end; use_oracles; done.

Ltac summary_count := cbn [List.filter is_clone length]; lia.

Ltac summary_cleanup :=
  let Hin := fresh "Hin" in
  intros Hin;
  first [ solve [exfalso; no_member Hin]
        | split;
          [first [reflexivity | exfalso; set_solver]
          |let Hrm := fresh in
           intros Hrm;
           first [congruence | apply not_in_filtered
                 | exfalso; set_solver]]].

Ltac summary_clone :=
  let cause := fresh "cause" in
  let Hin := fresh "Hin" in
  let Hc := fresh "Hc" in
  intros cause Hin Hc;
  first [ congruence
        | discriminate Hin
        | split;
          [unfold first_failure;
           match goal with p := clone_dir _ _ |- _ => fold p end;
           use_oracles; congruence
          |first [by eexists [_; _] | by eexists [_; _; _]]]].

Lemma analyze_repo_summary w cfg repo_url branch prefix :
  post (analyze_repo w cfg repo_url branch prefix) (init_state w)
    (fun r st => r = inr () ∧ run_summary w repo_url branch st).
Proof.
  unfold init_state.
  pose proof (base_ne_clone (cwd w) (uuid_hex w)) as Hne.
  repeat wp_step.
  all: split; [done|].
  all: unfold run_summary; cbn [stdout stderr disk trace repo_path].
  all: change (Path.joinpath (Path.joinpath (cwd w) "temp_clones")
                 ("cerebra-" +:+ uuid_hex w))
         with (clone_dir (cwd w) (uuid_hex w)) in *.
  all: set (p := clone_dir (cwd w) (uuid_hex w)) in *.
  all: set (base := Path.joinpath (cwd w) "temp_clones") in *.
  all: repeat match goal with
       | H : _ = [] ∨ _ = [_] |- _ => destruct H as [->| ->]
       | H : bool_decide _ = true |- _ => apply bool_decide_eq_true in H
       | H : bool_decide _ = false |- _ => apply bool_decide_eq_false in H
       end.
  all: cbn [app existsb is_clone orb].
  all: (split;
        [summary_stdout
        |split; [summary_count|split; [summary_cleanup|summary_clone]]]).
Qed.

(** The script with a configuration that loads, a key and its arguments:
    it runs [analyze_repo] and exits with status 0. *)
Lemma main_analyzes (w : world) (cfg : config) :
  load_config w = inr cfg → key_missing cfg = false →
  (length (argv w) <? 3)%nat = false →
  exit_code (main w) = 0
  ∧ run_summary w (arg_repo_url w) (arg_branch w) (final (main w)).
Proof.
  intros Hcfg Hkey Hargs. unfold main. rewrite Hcfg, Hkey, Hargs.
  pose proof (analyze_repo_summary w cfg (arg_repo_url w) (arg_branch w)
                (List.nth_error (argv w) 3)) as Hsum.
  unfold post in Hsum.
  destruct (analyze_repo w cfg (arg_repo_url w) (arg_branch w)
              (List.nth_error (argv w) 3) (init_state w)) as [r st].
  cbn [fst snd] in Hsum. destruct Hsum as [-> Hsum]. done.
Qed.

(** A run that leaves events behind has gone through [analyze_repo]. *)
Lemma main_trace (w : world) :
  trace (final (main w)) ≠ [] →
  ∃ cfg, load_config w = inr cfg ∧ key_missing cfg = false
         ∧ (length (argv w) <? 3)%nat = false.
Proof.
  unfold main. destruct (load_config w) as [e|cfg]; [by intros []|].
  destruct (key_missing cfg) eqn:Hkey; [by intros []|].
  destruct (length (argv w) <? 3)%nat eqn:Hargs; [by intros []|]. eauto.
Qed.

Lemma missing_key_envelope (w : world) (cfg : config) :
  load_config w = inr cfg → key_missing cfg = true →
  stdout (final (main w)) = [json_dumps_error key_error]
  ∧ exit_code (main w) = 1
  ∧ trace (final (main w)) = []
  ∧ Py.contains "CEREBRAS_API_KEY" (json_dumps_error key_error) = true.
Proof. intros Hcfg Hkey. unfold main. by rewrite Hcfg, Hkey. Qed.





(** C4, as the code has it.  In a run that created the clone directory,
    the last thing done to the outside is the removal of that directory,
    whatever stage failed; the directory is gone afterwards when that
    removal succeeds, and removal errors are ignored. *)
Theorem clone_dir_cleanup (w : world) :
  EvMkdir (clone_dir (cwd w) (uuid_hex w)) ∈ trace (final (main w)) →
  last (trace (final (main w)))
  = Some (EvRmtree (clone_dir (cwd w) (uuid_hex w)))
  ∧ (rmtree_ok w = true →
     clone_dir (cwd w) (uuid_hex w) ∉ disk (final (main w))).
Proof.
  intros Hin.
  destruct (main_trace w) as (cfg & Hcfg & Hkey & Hargs).
  { intros Hnil. rewrite Hnil in Hin. by apply elem_of_nil in Hin. }
  destruct (main_analyzes w cfg Hcfg Hkey Hargs) as (_ & _ & _ & Hclean & _).
  by apply Hclean.
Qed.

Lemma clone_dir_cleanup_witness :
  last (trace (final (main world_ok))) = Some (EvRmtree example_clone_dir)
  ∧ example_clone_dir ∉ disk (final (main world_ok)).
Proof.
  destruct (clone_dir_cleanup world_ok) as [Hlast Hgone].
  - apply list_elem_of_In. vm_compute. do 3 right. by left.
  - split; [exact Hlast|]. apply Hgone. reflexivity.
Defined.

(** C4, against the claim as stated.  The run succeeds, the clone
    directory was created, and it is still there at the end because its
    removal failed. *)
Lemma clone_dir_left_behind :
  exit_code (main world_locked) = 0
  ∧ stdout (final (main world_locked)) = [issues_answer]
  ∧ EvMkdir example_clone_dir ∈ trace (final (main world_locked))
  ∧ example_clone_dir ∈ disk (final (main world_locked)).
Proof.
  split_and!; [by vm_compute|by vm_compute| |].
  - apply list_elem_of_In. vm_compute. do 3 right. by left.
  - refine (bool_decide_eq_true_1 _ _). by vm_compute.
Qed.

(** The fetcher on a failing clone: the directory it made is removed
    (removal errors ignored) before [RuntimeError] is raised from the
    cause, and git is called once. *)
Lemma shallow_clone_failure (w : world) (repo_url branch : string)
    (cause : exn) (st : state) :
  clone_from w = inl cause →
  clone_dir (cwd w) (uuid_hex w) ∉ disk st →
  post (shallow_clone w repo_url branch) st (fun r st' =>
    r = inl (Exn "RuntimeError" ("Git clone failed: " +:+ exn_msg cause)
               (Some cause))
    ∧ stdout st' = stdout st
    ∧ (∃ t, trace st'
            = trace st ++ t
              ++ [EvMkdir (clone_dir (cwd w) (uuid_hex w));
                  EvClone repo_url branch (clone_dir (cwd w) (uuid_hex w));
                  EvRmtree (clone_dir (cwd w) (uuid_hex w))]
            ∧ existsb is_clone t = false)
    ∧ (rmtree_ok w = true → clone_dir (cwd w) (uuid_hex w) ∉ disk st')).
Proof.
  intros Hclone Hfresh.
  pose proof (base_ne_clone (cwd w) (uuid_hex w)) as Hne.
  repeat wp_step.
  all: change (Path.joinpath (Path.joinpath (cwd w) "temp_clones")
                 ("cerebra-" +:+ uuid_hex w))
         with (clone_dir (cwd w) (uuid_hex w)) in *.
  all: repeat match goal with
       | H : bool_decide _ = true |- _ => apply bool_decide_eq_true in H
       | H : bool_decide _ = false |- _ => apply bool_decide_eq_false in H
       end.
  all: try congruence.
  all: try (exfalso; apply Hfresh;
            match goal with H : ∀ q, _ → _ ↔ _ |- _ => by apply H end).
  all: simplify_eq.
  all: split_and!; [done|done| |].
  all: try (intros Hrm; first [congruence|apply not_in_filtered]).
  all: match goal with
       | H : ?t = [] ∨ ?t = [_] |- _ =>
           exists t; split;
           [by rewrite <-!app_assoc|by destruct H as [->| ->]]
       end.
Qed.

Lemma clone_event_run (w : world) :
  existsb is_clone (trace (final (main w))) = true →
  ∃ cfg, load_config w = inr cfg ∧ key_missing cfg = false
         ∧ (length (argv w) <? 3)%nat = false.
Proof.
  intros Hex. apply main_trace. intros Hnil. by rewrite Hnil in Hex.
Qed.

(** C5, as the code has it.  When git is called and fails, the fetcher
    calls the removal of the directory it made and then raises
    [RuntimeError] chained to the cause; git is called once; the run
    prints the one envelope of that error; and the directory is gone
    afterwards when the removal succeeds, its errors being ignored. *)
Theorem clone_failure_reported (w : world) (cause : exn) :
  existsb is_clone (trace (final (main w))) = true →
  clone_from w = inl cause →
  (∀ st, clone_dir (cwd w) (uuid_hex w) ∉ disk st →
     fst (shallow_clone w (arg_repo_url w) (arg_branch w) st)
     = inl (Exn "RuntimeError" ("Git clone failed: " +:+ exn_msg cause)
              (Some cause))
     ∧ last (trace (snd (shallow_clone w (arg_repo_url w) (arg_branch w)
                           st)))
       = Some (EvRmtree (clone_dir (cwd w) (uuid_hex w))))
  ∧ stdout (final (main w))
    = [json_dumps_error
         ("ERROR in Python analyzer: RuntimeError: Git clone failed: "
          +:+ exn_msg cause)]
  ∧ (∃ t, trace (final (main w))
          = t ++ [EvMkdir (clone_dir (cwd w) (uuid_hex w));
                  EvClone (arg_repo_url w) (arg_branch w)
                    (clone_dir (cwd w) (uuid_hex w));
                  EvRmtree (clone_dir (cwd w) (uuid_hex w))]
          ∧ existsb is_clone t = false)
  ∧ (rmtree_ok w = true →
     clone_dir (cwd w) (uuid_hex w) ∉ disk (final (main w))).
Proof.
  intros Hex Hclone. split.
  { intros st Hfresh.
    pose proof (shallow_clone_failure w (arg_repo_url w) (arg_branch w)
                  cause st Hclone Hfresh) as (Hr & _ & (t & Ht & _) & _).
    split; [done|]. rewrite Ht.
    apply last_Some.
    exists (trace st ++ t
            ++ [EvMkdir (clone_dir (cwd w) (uuid_hex w));
                EvClone (arg_repo_url w) (arg_branch w)
                  (clone_dir (cwd w) (uuid_hex w))]).
    by rewrite <-!app_assoc. }
  destruct (clone_event_run w Hex) as (cfg & Hcfg & Hkey & Hargs).
  destruct (main_analyzes w cfg Hcfg Hkey Hargs)
    as (_ & Hout & _ & Hclean & Hfail).
  destruct (Hfail cause Hex Hclone) as (Hfirst & t & Ht & Hnone).
  split_and!.
  - rewrite Hout. unfold answer. by rewrite Hfirst.
  - by exists t.
  - apply Hclean. rewrite Ht. set_solver.
Qed.

Lemma clone_failure_reported_witness :
  stdout (final (main world_clone_fails))
  = [json_dumps_error
       ("ERROR in Python analyzer: RuntimeError: Git clone failed: "
        +:+ "Remote branch main not found")]
  ∧ example_clone_dir ∉ disk (final (main world_clone_fails)).
Proof.
  destruct (clone_failure_reported world_clone_fails
              (Exn "GitCommandError" "Remote branch main not found" None))
    as (_ & Hout & _ & Hgone).
  - by vm_compute.
  - reflexivity.
  - split; [exact Hout|]. apply Hgone. reflexivity.
Defined.

(** C5, against the claim as stated.  Git is called and fails, the one
    envelope is printed, and the directory is still on disk because its
    removal failed. *)
Lemma failed_clone_left_behind :
  existsb is_clone (trace (final (main world_clone_fails_locked))) = true
  ∧ stdout (final (main world_clone_fails_locked))
    = [json_dumps_error
         "ERROR in Python analyzer: RuntimeError: Git clone failed: Remote branch main not found"]
  ∧ example_clone_dir ∈ disk (final (main world_clone_fails_locked)).
Proof.
  split_and!; [by vm_compute|by vm_compute|].
  refine (bool_decide_eq_true_1 _ _). by vm_compute.
Qed.

Lemma sanitize_passes_trimmed_witness :
  sanitize "  no issues found  " = Py.strip "  no issues found  ".
Proof.
  apply sanitize_passes_trimmed. right. right. reflexivity.
Defined.

(** C7, against the claim as stated.  A response without braces that
    has blanks around it is printed without them, so the printed line is
    not the original content. *)
Lemma sanitize_changes_content :
  sanitize "  no issues found  " = "no issues found"
  ∧ stdout (final (main world_prose)) = ["no issues found"]
  ∧ stdout (final (main world_prose)) ≠ ["  no issues found  "].
Proof. split_and!; by vm_compute. Qed.

(** C8, at the failing input.  The key is unset and the token cap is not
    a number: line 24 raises before the key is looked at, so nothing is
    printed on standard output; the status is 1 and no network call is
    made. *)
Theorem no_key_bad_cap_prints_nothing :
  getenv world_no_key_bad_cap "CEREBRAS_API_KEY" = None
  ∧ stdout (final (main world_no_key_bad_cap)) = []
  ∧ stderr (final (main world_no_key_bad_cap))
    = ["ValueError: invalid literal for int() with base 10: '4k'"
       +:+ Py.nl]
  ∧ exit_code (main world_no_key_bad_cap) = 1
  ∧ trace (final (main world_no_key_bad_cap)) = [].
Proof. split_and!; by vm_compute. Qed.

(** The end-to-end scenario of the specification. *)
Example end_to_end :
  stdout (final (main world_ok)) = [issues_answer]
  ∧ exit_code (main world_ok) = 0
  ∧ example_clone_dir ∉ disk (final (main world_ok)).
Proof.
  split_and!; [by vm_compute|by vm_compute|].
  refine (bool_decide_eq_false_1 _ _). by vm_compute.
Qed.

Example missing_key_run :
  stdout (final (main world_no_key)) = [json_dumps_error key_error]
  ∧ exit_code (main world_no_key) = 1.
Proof. split; by vm_compute. Qed.

(** * Further properties *)

(** ** Repository Fetcher: the name of the clone directory *)

(** X1.  Two runs in the same working directory whose random tokens
    differ get different clone directories. *)
Theorem clone_dir_distinct (cwd : path) (hex1 hex2 : string) :
  hex1 ≠ hex2 → clone_dir cwd hex1 ≠ clone_dir cwd hex2.
Proof.
  intros Hne Heq. apply Hne. unfold clone_dir, Path.joinpath in Heq.
  apply app_inj_tail in Heq as [_ Heq].
  by apply (inj (String.append "cerebra-")) in Heq.
Qed.

Lemma clone_dir_distinct_witness :
  clone_dir ["/"; "srv"; "app"] "0f3a" ≠ clone_dir ["/"; "srv"; "app"] "0f3b".
Proof. apply clone_dir_distinct. discriminate. Defined.

(** ** Source Collector: composition and position *)

Lemma walk_below_entry (root : path) (n : string) (children : list entry)
    (p : fsnode) :
  p ∈ walk root (Dir n children) → Path.joinpath root n `prefix_of` parts p.
Proof.
  cbn [walk]. intros [->|Hin]%elem_of_cons; [done|].
  apply list_elem_of_In, in_flat_map in Hin as (c & _ & Hp).
  eapply walk_below. by apply list_elem_of_In.
Qed.

Lemma filter_nothing {A} (f : A → bool) (l : list A) :
  (∀ x, x ∈ l → f x = false) → List.filter f l = [].
Proof.
  induction l as [|x l IH]; intros Hall; [done|]. cbn [List.filter].
  rewrite (Hall x) by apply list_elem_of_here.
  apply IH. intros y Hy. apply Hall. by apply list_elem_of_further.
Qed.

(** X2.  A directory of the repository named like a skipped directory
    contributes nothing, whatever it holds and however deep its files
    are: the collector returns what it returns for the rest of the tree. *)
Theorem collect_drops_skipped_directory
    (root : path) (skip : string) (children rest : list entry) :
  skip ∈ skip_dirs →
  collect_source_files root (Dir skip children :: rest)
  = collect_source_files root rest.
Proof.
  intros Hskip. rewrite !collect_is_filter. unfold rglob.
  cbn [flat_map]. rewrite List.filter_app.
  rewrite (filter_nothing collected (walk root (Dir skip children))); [done|].
  intros p [below Hparts]%walk_below_entry. unfold collected.
  assert (any_skip (parts p) = true) as ->; [|done].
  apply any_skip_true. exists skip. split; [done|].
  rewrite Hparts. unfold Path.joinpath. rewrite !elem_of_app.
  left. right. apply list_elem_of_here.
Qed.

Lemma collect_drops_skipped_directory_witness :
  collect_source_files ["/"; "w"]
    (Dir "node_modules" [Dir "pkg" [File "index.js" true (Some "x")]]
     :: [File "app.py" true (Some "y")])
  = collect_source_files ["/"; "w"] [File "app.py" true (Some "y")].
Proof.
  apply collect_drops_skipped_directory. unfold skip_dirs. set_solver.
Defined.


Lemma walk_strictly_below (e : entry) (root : path) (p : fsnode) :
  p ∈ walk root e → ∃ n rel, parts p = root ++ n :: rel.
Proof.
  destruct e as [n regular text|n children]; cbn [walk].
  - intros ->%list_elem_of_singleton. by exists n, [].
  - intros [->|Hin]%elem_of_cons; [by exists n, []|].
    apply list_elem_of_In, in_flat_map in Hin as (c & _ & Hp).
    apply list_elem_of_In, walk_below in Hp as [k Hk].
    exists n, k. rewrite Hk. unfold Path.joinpath. by rewrite <-app_assoc.
Qed.

(** X4.  Every collected path lies strictly below the root it was
    collected from: the root itself is never returned, and no path
    outside of it. *)
Theorem collected_strictly_below_root
    (root : path) (tree : list entry) (p : fsnode) :
  p ∈ collect_source_files root tree →
  ∃ n rel, parts p = root ++ n :: rel.
Proof.
  rewrite collect_is_filter.
  intros [Hin _]%list_elem_of_In%filter_In.
  apply in_flat_map in Hin as (e & _ & Hp).
  eapply walk_strictly_below. by apply list_elem_of_In.
Qed.

Lemma collected_strictly_below_root_witness :
  ∃ n rel, ["/"; "w"; "src"; "index.js"] = ["/"; "w"] ++ n :: rel.
Proof.
  apply (collected_strictly_below_root ["/"; "w"]
           [Dir "src" [File "index.js" true (Some "x")]]
           (FsNode ["/"; "w"; "src"; "index.js"] true (Some "x"))).
  vm_compute. apply list_elem_of_here.
Defined.

(** ** Prompt Builder: unreadable files, the note and the break *)

Lemma body_loop_readable (files : list fsnode) :
  ∀ body, body_loop files body = body_loop (List.filter readable files) body.
Proof.
  induction files as [|f rest IH]; intros body; [done|].
  cbn [body_loop List.filter]. unfold readable at 1.
  destruct (read_text f) as [content|] eqn:Hread; [|apply IH].
  cbn [body_loop]. rewrite Hread.
  destruct (_ >? _); [done|apply IH].
Qed.

(** X5.  A file whose text cannot be read leaves no mark on the prompt
    and does not stop the loop: the prompt and the note are those of the
    list with the unreadable files taken out. *)
Theorem build_prompt_skips_unreadable
    (files : list fsnode) (repo_url branch : string) (prefix : option string) :
  build_prompt files repo_url branch prefix
  = build_prompt (List.filter readable files) repo_url branch prefix.
Proof. unfold build_prompt. by rewrite body_loop_readable. Qed.

Lemma body_loop_note (files : list fsnode) :
  ∀ body,
    match snd (body_loop files body) with
    | None =>
        fst (body_loop files body)
        = body +:+ concat_str (readable_blocks files)
    | Some note =>
        note = limit_note (fst (body_loop files body))
        ∧ ∃ k next, readable_blocks files !! k = Some next
            ∧ fst (body_loop files body)
              = body +:+ concat_str (take k (readable_blocks files))
            ∧ Py.len (fst (body_loop files body)) + Py.len next > max_chars
    end.
Proof.
  induction files as [|f rest IH]; intros body.
  - cbn. by rewrite app_empty_r.
  - cbn [body_loop readable_blocks omap list_omap].
    fold (readable_blocks rest).
    destruct (read_text f) as [content|]; cbn [fmap option_fmap option_map];
      [|apply IH].
    destruct (Py.len body + Py.len (block (parts f) content) >? max_chars)
      eqn:Hcmp.
    + cbn [fst snd]. split; [done|].
      exists 0%nat, (block (parts f) content).
      cbn [take concat_str foldr lookup list_lookup].
      rewrite app_empty_r. split_and!; [done..|].
      apply Z.gtb_gt in Hcmp. lia.
    + specialize (IH (body +:+ block (parts f) content)).
      destruct (snd (body_loop rest (body +:+ block (parts f) content))).
      * destruct IH as (Hnote & k & next & Hk & Hbody & Hover).
        split; [done|]. exists (S k), next.
        cbn [take concat_str foldr lookup list_lookup].
        fold (concat_str (take k (readable_blocks rest))).
        by rewrite <-app_assoc_str.
      * cbn [concat_str foldr]. fold (concat_str (readable_blocks rest)).
        by rewrite <-app_assoc_str.
Qed.

(** X6.  The note on standard error tells exactly when files were left
    out.  Without a note the body holds the blocks of all readable
    files; with a note, the note gives the length of the body, and some
    readable file's block is missing because it would have passed the
    budget. *)
Theorem build_note_iff_omitted (files : list fsnode) :
  match build_note files with
  | None => build_body files = concat_str (readable_blocks files)
  | Some note =>
      note = "DEBUG: Reached context limit after "
             +:+ pretty (Py.len (build_body files))
             +:+ " chars. Skipping remaining files." +:+ Py.nl
      ∧ ∃ k next, readable_blocks files !! k = Some next
          ∧ build_body files = concat_str (take k (readable_blocks files))
          ∧ Py.len (build_body files) + Py.len next > 30000
  end.
Proof.
  pose proof (body_loop_note files "") as H. unfold build_note, build_body.
  destruct (snd (body_loop files "")); [|by rewrite app_empty in H].
  destruct H as (Hnote & k & next & Hk & Hbody & Hover).
  split; [done|]. exists k, next. by rewrite app_empty in Hbody.
Qed.

Lemma body_loop_fits (files : list fsnode) :
  ∀ body,
    Py.len (body +:+ concat_str (readable_blocks files)) <= max_chars →
    body_loop files body
    = (body +:+ concat_str (readable_blocks files), None).
Proof.
  induction files as [|f rest IH]; intros body Hfit.
  - cbn. by rewrite app_empty_r.
  - cbn [body_loop readable_blocks omap list_omap] in *.
    fold (readable_blocks rest) in *.
    destruct (read_text f) as [content|];
      cbn [fmap option_fmap option_map] in *; [|by apply IH].
    cbn [concat_str foldr] in *. fold (concat_str (readable_blocks rest)) in *.
    rewrite <-app_assoc_str in *.
    destruct (Z.gtb_spec (Py.len body + Py.len (block (parts f) content))
                max_chars) as [Hgt|Hle].
    + rewrite !len_app in Hfit.
      pose proof (len_nonneg (concat_str (readable_blocks rest))). lia.
    + by apply IH.
Qed.

(** X7.  When the blocks of all readable files together hold at most
    30000 characters, nothing is left out: the body is all of them, in
    order, and no note is written. *)
Theorem build_prompt_keeps_all_that_fit (files : list fsnode) :
  Py.len (concat_str (readable_blocks files)) <= 30000 →
  build_body files = concat_str (readable_blocks files)
  ∧ build_note files = None.
Proof.
  intros Hfit. unfold build_body, build_note.
  by rewrite (body_loop_fits files "" Hfit), app_empty.
Qed.

Lemma build_prompt_keeps_all_that_fit_witness :
  build_body (take 9 ten_files) = concat_str (readable_blocks (take 9 ten_files))
  ∧ build_note (take 9 ten_files) = None.
Proof.
  apply build_prompt_keeps_all_that_fit.
  apply Z.leb_le. vm_compute. reflexivity.
Defined.

Lemma body_loop_stops (files more : list fsnode) :
  ∀ body, snd (body_loop files body) ≠ None →
    body_loop (files ++ more) body = body_loop files body.
Proof.
  induction files as [|f rest IH]; intros body Hnote; [done|].
  cbn [app body_loop] in *.
  destruct (read_text f) as [content|]; [|by apply IH].
  destruct (_ >? _); [done|by apply IH].
Qed.

(** X8.  The loop breaks, it does not skip: once a block has passed the
    budget, no later file is looked at, so files added after that point,
    however small, change neither the prompt nor the note. *)
Theorem build_prompt_ignores_files_after_break
    (files more : list fsnode) (repo_url branch : string)
    (prefix : option string) :
  build_note files ≠ None →
  build_prompt (files ++ more) repo_url branch prefix
  = build_prompt files repo_url branch prefix.
Proof.
  intros Hnote. unfold build_prompt. by rewrite body_loop_stops.
Qed.

Lemma build_prompt_ignores_files_after_break_witness :
  build_prompt
    (ten_files ++ [FsNode ["/"; "w"; "temp_clones"; "cerebra-0f3a"; "s.py"]
                     true (Some "x = 1")])
    "https://example.com/repo.git" "main" None
  = build_prompt ten_files "https://example.com/repo.git" "main" None.
Proof.
  apply build_prompt_ignores_files_after_break.
  vm_compute. discriminate.
Defined.

Lemma marker_index_unmarked (f : path) (i : Z) :
  unmarked f → marker_index f i = -1.
Proof.
  intros Hf. revert i. induction Hf as [|x f Hx _ IH]; intros i; [done|].
  cbn [marker_index]. by rewrite Hx.
Qed.

(** X9.  When no part of a file's path contains "cerebra-", its label in
    the prompt is the bare file name. *)
Theorem display_path_falls_back_to_name (f : path) :
  unmarked f → display_path f = Path.name f.
Proof.
  intros Hf. unfold display_path. by rewrite marker_index_unmarked.
Qed.

Lemma display_path_falls_back_to_name_witness :
  display_path ["/"; "home"; "me"; "project"; "lib"; "util.py"]
  = Path.name ["/"; "home"; "me"; "project"; "lib"; "util.py"].
Proof.
  apply display_path_falls_back_to_name. by repeat constructor.
Defined.

(** ** The pipeline: what a run does to the outside *)

(** [mkdir(exist_ok=True)], with the directory known to be there
    afterwards. *)
Lemma post_mkdir_created (p : path) st Q :
  (∀ t d, (t = [] ∨ t = [EvMkdir p]) →
          (∀ q, q ≠ p → q ∈ d ↔ q ∈ disk st) → p ∈ d →
     Q (inr ()) (State (stdout st) (stderr st) d (trace st ++ t)
                   (repo_path st))) →
  post (mkdir p true) st Q.
Proof.
  intros HQ. unfold mkdir. apply post_bind, post_get_disk.
  destruct (bool_decide (p ∈ disk st)) eqn:Hin.
  - apply post_ret. specialize (HQ [] (disk st)).
    rewrite app_nil_r in HQ. destruct st. apply HQ; auto.
    by apply bool_decide_eq_true in Hin.
  - apply post_bind, post_emit, post_set_disk. cbn.
    apply HQ; [auto| |set_solver]. intros q Hq. set_solver.
Qed.

Lemma clone_not_prefix_of_base (cwd : path) (hex : string) :
  ¬ clone_dir cwd hex `prefix_of` Path.joinpath cwd "temp_clones".
Proof.
  intros Hpre%prefix_length. unfold clone_dir, Path.joinpath in Hpre.
  rewrite !length_app in Hpre. cbn [length] in Hpre. lia.
Qed.

Ltac wp_step_fx :=
  lazymatch goal with
  | |- post (mkdir _ true) _ _ =>
      apply post_mkdir_created; intros ? ? ? ? ?;
      cbn [stdout stderr disk trace repo_path]
  | _ => wp_step
  end.

Ltac has_member :=
  repeat first [apply list_elem_of_here | apply list_elem_of_further].

Ltac fx_frame :=
  let q := fresh "q" in
  let Hq := fresh "Hq" in
  let Hpre := fresh "Hpre" in
  intros q Hq Hpre;
  try match goal with
      | H : ∀ q, q ≠ _ → q ∈ _ ↔ q ∈ _ |- _ => rewrite <-(H q Hq)
      end;
  rewrite ?elem_of_filter, ?elem_of_union, ?elem_of_singleton;
  split; [intros; destruct_and?; destruct_or?; first [done|by subst]
         |intros; first [done | split; [done|by left] | by left]].

Ltac fx_preexist :=
  let Hp := fresh "Hp" in
  intros Hp;
  first [ exfalso;
          match goal with
          | H : ∀ q, q ≠ _ → q ∈ _ ↔ q ∈ _, Hn : _ ∉ _ |- _ =>
              apply Hn; apply H; [congruence|done]
          end
        | split; [first [done
                        | match goal with
                          | H : ∀ q, q ≠ _ → q ∈ _ ↔ q ∈ _ |- _ =>
                              apply H; [congruence|done]
                          end]
                 |split; [reflexivity
                         |let Hin := fresh in intros Hin; no_member Hin]]].

Ltac fx_post :=
  let u := fresh "u" in
  let Hin := fresh "Hin" in
  intros u Hin;
  repeat (apply elem_of_cons in Hin as [Hin|Hin];
          [first [discriminate Hin
                 |injection Hin as ->; split_and!; [done|eauto|done|done]]|]);
  by apply elem_of_nil in Hin.

Ltac fx_made :=
  let Hn := fresh "Hn" in
  intros Hn;
  first [ solve [has_member]
        | exfalso; revert Hn; unfold first_failure;
          match goal with p := clone_dir _ _ |- _ => fold p end;
          use_oracles; done ].

Ltac fx_stderr :=
  let e := fresh "e" in
  let He := fresh "He" in
  intros e He; revert He; unfold first_failure;
  match goal with p := clone_dir _ _ |- _ => fold p end;
  use_oracles;
  first [discriminate | intros [= <-]; solve [has_member]].

Ltac fx_base :=
  let H1 := fresh in
  let H2 := fresh in
  intros H1 H2;
  first [ done
        | match goal with
          | H : resolve _ _ = DnsRaises _ |- _ =>
              exfalso; first [by eapply H1 | by eapply H2]
          end
        | apply elem_of_filter; split;
          [apply clone_not_prefix_of_base|set_solver]
        | set_solver ].

Lemma analyze_repo_effects w cfg repo_url branch prefix :
  post (analyze_repo w cfg repo_url branch prefix) (init_state w)
    (fun r st => run_effects w cfg st).
Proof.
  unfold init_state.
  pose proof (base_ne_clone (cwd w) (uuid_hex w)) as Hne.
  repeat wp_step_fx.
  all: unfold run_effects; cbn [stdout stderr disk trace repo_path].
  all: change (Path.joinpath (Path.joinpath (cwd w) "temp_clones")
                 ("cerebra-" +:+ uuid_hex w))
         with (clone_dir (cwd w) (uuid_hex w)) in *.
  all: set (p := clone_dir (cwd w) (uuid_hex w)) in *.
  all: set (base := Path.joinpath (cwd w) "temp_clones") in *.
  all: repeat match goal with
       | H : _ = [] ∨ _ = [_] |- _ => destruct H as [->| ->]
       | H : bool_decide _ = true |- _ => apply bool_decide_eq_true in H
       | H : bool_decide _ = false |- _ => apply bool_decide_eq_false in H
       end.
  all: cbn [app existsb is_clone orb].
  all: (split; [fx_frame|split; [fx_preexist|split; [fx_post|split;
        [cbn [List.filter is_post length]; lia|split; [fx_made|split;
        [fx_stderr|fx_base]]]]]]).
Qed.

Lemma main_effects (w : world) (cfg : config) :
  load_config w = inr cfg → key_missing cfg = false →
  (length (argv w) <? 3)%nat = false →
  run_effects w cfg (final (main w)).
Proof.
  intros Hcfg Hkey Hargs. unfold main. rewrite Hcfg, Hkey, Hargs.
  pose proof (analyze_repo_effects w cfg (arg_repo_url w) (arg_branch w)
                (List.nth_error (argv w) 3)) as Hfx.
  pose proof (analyze_repo_summary w cfg (arg_repo_url w) (arg_branch w)
                (List.nth_error (argv w) 3)) as [Hr _].
  unfold post in Hfx, Hr.
  destruct (analyze_repo w cfg (arg_repo_url w) (arg_branch w)
              (List.nth_error (argv w) 3) (init_state w)) as [r st].
  cbn [fst snd] in Hfx, Hr. by subst r.
Qed.

(** X10.  With a configuration that loads and a key, but fewer than two
    arguments, the script prints the usage envelope and exits with
    status 1 before doing anything: no diagnostics, no network call, no
    directory made. *)
Theorem too_few_arguments_run (w : world) (cfg : config) :
  load_config w = inr cfg → key_missing cfg = false →
  (length (argv w) < 3)%nat →
  stdout (final (main w))
  = [json_dumps_error
       "Usage: python cerebras_analyzer.py <repo_url> <branch> [prefix]"]
  ∧ exit_code (main w) = 1
  ∧ stderr (final (main w)) = []
  ∧ trace (final (main w)) = []
  ∧ disk (final (main w)) = disk0 w.
Proof.
  intros Hcfg Hkey Hargs%Nat.ltb_lt. unfold main.
  by rewrite Hcfg, Hkey, Hargs.
Qed.

Lemma too_few_arguments_run_witness :
  stdout (final (main world_no_branch))
  = [json_dumps_error
       "Usage: python cerebras_analyzer.py <repo_url> <branch> [prefix]"]
  ∧ exit_code (main world_no_branch) = 1
  ∧ stderr (final (main world_no_branch)) = []
  ∧ trace (final (main world_no_branch)) = []
  ∧ disk (final (main world_no_branch)) = disk0 world_no_branch.
Proof.
  apply (too_few_arguments_run world_no_branch example_config).
  - by vm_compute.
  - reflexivity.
  - cbn. lia.
Defined.

(** X11.  When the token cap is left unset, a key that is unset or empty
    always ends the process with the key envelope on standard output and
    status 1, before the arguments are looked at and without any network
    call. *)
Theorem missing_key_with_default_cap (w : world) :
  environ w !! "CEREBRAS_MAX_TOKENS" = None →
  environ w !! "CEREBRAS_API_KEY" = None
  ∨ environ w !! "CEREBRAS_API_KEY" = Some "" →
  stdout (final (main w))
  = [json_dumps_error "CEREBRAS_API_KEY not set in environment"]
  ∧ exit_code (main w) = 1
  ∧ trace (final (main w)) = [].
Proof.
  intros Hcap Hkey.
  assert (∃ cfg, load_config w = inr cfg ∧ key_missing cfg = true)
    as (cfg & Hcfg & Hmiss).
  { unfold load_config, getenv_or, getenv. rewrite Hcap. cbn [default].
    eexists. split; [reflexivity|]. unfold key_missing.
    cbn [CEREBRAS_API_KEY]. unfold getenv. by destruct Hkey as [-> | ->]. }
  destruct (missing_key_envelope w cfg Hcfg Hmiss) as (? & ? & ? & _).
  done.
Qed.

Lemma missing_key_with_default_cap_witness :
  stdout (final (main world_no_key))
  = [json_dumps_error "CEREBRAS_API_KEY not set in environment"]
  ∧ exit_code (main world_no_key) = 1
  ∧ trace (final (main world_no_key)) = [].
Proof.
  apply missing_key_with_default_cap.
  - reflexivity.
  - left. reflexivity.
Defined.

(** X12.  A failure inside [analyze_repo] does not show in the exit
    status: the script still exits with status 0, the failure being told
    by the envelope on standard output and by the same text, with a
    newline, on standard error. *)
Theorem failures_exit_zero (w : world) (cfg : config) (e : exn) :
  load_config w = inr cfg → key_missing cfg = false →
  (3 ≤ length (argv w))%nat →
  first_failure w = Some e →
  exit_code (main w) = 0
  ∧ stdout (final (main w))
    = [json_dumps_error ("ERROR in Python analyzer: " +:+ exn_type e
                         +:+ ": " +:+ exn_msg e)]
  ∧ ("ERROR in Python analyzer: " +:+ exn_type e +:+ ": " +:+ exn_msg e)
    +:+ Py.nl ∈ stderr (final (main w)).
Proof.
  intros Hcfg Hkey Hargs%Nat.ltb_ge Hfail.
  destruct (main_analyzes w cfg Hcfg Hkey Hargs) as (Hexit & Hout & _).
  destruct (main_effects w cfg Hcfg Hkey Hargs)
    as (_ & _ & _ & _ & _ & Herr & _).
  split_and!; [done| |by apply Herr].
  rewrite Hout. unfold answer. by rewrite Hfail.
Qed.

Lemma failures_exit_zero_witness :
  exit_code (main world_http_500) = 0
  ∧ stdout (final (main world_http_500))
    = [json_dumps_error
         ("ERROR in Python analyzer: " +:+ "HTTPStatusError" +:+ ": "
          +:+ "Server error '500 Internal Server Error'")]
  ∧ ("ERROR in Python analyzer: " +:+ "HTTPStatusError" +:+ ": "
     +:+ "Server error '500 Internal Server Error'") +:+ Py.nl
    ∈ stderr (final (main world_http_500)).
Proof.
  apply (failures_exit_zero world_http_500 example_config
           (Exn "HTTPStatusError" "Server error '500 Internal Server Error'"
              None)).
  - by vm_compute.
  - reflexivity.
  - cbn. lia.
  - by vm_compute.
Defined.

(** X13.  The DNS checks only inform: when both lookups fail with
    [gaierror] and the later stages work, the run goes on to clone and to
    call the endpoint, prints the sanitized answer and exits with
    status 0. *)
Theorem dns_failure_does_not_stop
    (w : world) (cfg : config) (m1 m2 content : string)
    (tree : list entry) :
  load_config w = inr cfg → key_missing cfg = false →
  (3 ≤ length (argv w))%nat →
  resolve w "github.com" = Gaierror m1 →
  resolve w "api.cerebras.net" = Gaierror m2 →
  clone_dir (cwd w) (uuid_hex w) ∉ disk0 w →
  clone_from w = inr tree →
  fault w Collecting = None → fault w Building = None →
  completion w = inr content →
  stdout (final (main w)) = [sanitize content]
  ∧ exit_code (main w) = 0
  ∧ EvPost (CEREBRAS_BASE_URL cfg +:+ "/chat/completions")
    ∈ trace (final (main w)).
Proof.
  intros Hcfg Hkey Hargs%Nat.ltb_ge Hg Ha Hfresh Hclone Hc Hb Hdone.
  assert (first_failure w = None) as Hnone.
  { unfold first_failure. rewrite Hg, Ha, Hclone, Hc, Hb, Hdone.
    by rewrite bool_decide_eq_false_2. }
  destruct (main_analyzes w cfg Hcfg Hkey Hargs) as (Hexit & Hout & _).
  destruct (main_effects w cfg Hcfg Hkey Hargs)
    as (_ & _ & _ & _ & Hpost & _).
  split_and!; [|done|by apply Hpost].
  rewrite Hout. unfold answer. by rewrite Hnone, Hdone.
Qed.

Lemma dns_failure_does_not_stop_witness :
  stdout (final (main world_dns_down)) = [sanitize issues_answer]
  ∧ exit_code (main world_dns_down) = 0
  ∧ EvPost (CEREBRAS_BASE_URL example_config +:+ "/chat/completions")
    ∈ trace (final (main world_dns_down)).
Proof.
  apply (dns_failure_does_not_stop world_dns_down example_config
           "[Errno -2] Name or service not known"
           "[Errno -2] Name or service not known" issues_answer
           example_tree).
  - by vm_compute.
  - reflexivity.
  - cbn. lia.
  - reflexivity.
  - reflexivity.
  - refine (bool_decide_eq_false_1 _ _). by vm_compute.
  - reflexivity.
  - reflexivity.
  - reflexivity.
  - reflexivity.
Defined.

(** X14.  A run creates and removes nothing outside its own
    directories: a directory that is neither the staging folder
    [temp_clones] nor the clone directory or something below it is on
    disk after the run exactly when it was there before. *)
Theorem run_keeps_other_directories (w : world) (q : path) :
  q ≠ Path.joinpath (cwd w) "temp_clones" →
  ¬ clone_dir (cwd w) (uuid_hex w) `prefix_of` q →
  q ∈ disk (final (main w)) ↔ q ∈ disk0 w.
Proof.
  intros Hq Hpre.
  destruct (load_config w) as [e|cfg] eqn:Hcfg;
    [unfold main; by rewrite Hcfg|].
  destruct (key_missing cfg) eqn:Hkey;
    [unfold main; by rewrite Hcfg, Hkey|].
  destruct (length (argv w) <? 3)%nat eqn:Hargs;
    [unfold main; by rewrite Hcfg, Hkey, Hargs|].
  destruct (main_effects w cfg Hcfg Hkey Hargs) as (Hframe & _).
  by apply Hframe.
Qed.

Lemma run_keeps_other_directories_witness :
  ["/"; "srv"; "app"; "data"] ∈ disk (final (main world_http_500))
  ↔ ["/"; "srv"; "app"; "data"] ∈ disk0 world_http_500.
Proof.
  apply run_keeps_other_directories.
  - discriminate.
  - intros [k Hk]. discriminate Hk.
Defined.





(** X17.  The completion endpoint is called at most once in a run, at
    the configured base URL followed by "/chat/completions", and only
    after the clone, the collection and the prompt building went
    through; when no stage fails the call is made. *)
Theorem completion_request_once (w : world) (cfg : config) :
  load_config w = inr cfg → key_missing cfg = false →
  (3 ≤ length (argv w))%nat →
  (length (List.filter is_post (trace (final (main w)))) ≤ 1)%nat
  ∧ (∀ u, EvPost u ∈ trace (final (main w)) →
       u = CEREBRAS_BASE_URL cfg +:+ "/chat/completions"
       ∧ (∃ tree, clone_from w = inr tree)
       ∧ fault w Collecting = None ∧ fault w Building = None)
  ∧ (first_failure w = None →
     EvPost (CEREBRAS_BASE_URL cfg +:+ "/chat/completions")
     ∈ trace (final (main w))).
Proof.
  intros Hcfg Hkey Hargs%Nat.ltb_ge.
  destruct (main_effects w cfg Hcfg Hkey Hargs)
    as (_ & _ & Honly & Hcount & Hmade & _).
  done.
Qed.

Lemma completion_request_once_witness :
  (length (List.filter is_post (trace (final (main world_ok)))) ≤ 1)%nat
  ∧ EvPost "https://api.cerebras.net/v1/chat/completions"
    ∈ trace (final (main world_ok)).
Proof.
  destruct (completion_request_once world_ok example_config)
    as (Hcount & _ & Hmade).
  - by vm_compute.
  - reflexivity.
  - cbn. lia.
  - split; [exact Hcount|]. apply Hmade. by vm_compute.
Defined.

Lemma shallow_clone_success_post (w : world) (repo_url branch : string)
    (tree : list entry) (st : state) :
  clone_from w = inr tree →
  clone_dir (cwd w) (uuid_hex w) ∉ disk st →
  post (shallow_clone w repo_url branch) st (fun r st' =>
    r = inr (clone_dir (cwd w) (uuid_hex w))
    ∧ clone_dir (cwd w) (uuid_hex w) ∈ disk st'
    ∧ Path.joinpath (cwd w) "temp_clones" ∈ disk st'
    ∧ stdout st' = stdout st ∧ stderr st' = stderr st
    ∧ ∃ t, trace st'
           = trace st ++ t
             ++ [EvMkdir (clone_dir (cwd w) (uuid_hex w));
                 EvClone repo_url branch (clone_dir (cwd w) (uuid_hex w))]
           ∧ (t = [] ∨ t = [EvMkdir (Path.joinpath (cwd w) "temp_clones")])).
Proof.
  intros Hclone Hfresh.
  pose proof (base_ne_clone (cwd w) (uuid_hex w)) as Hne.
  repeat wp_step_fx.
  all: change (Path.joinpath (Path.joinpath (cwd w) "temp_clones")
                 ("cerebra-" +:+ uuid_hex w))
         with (clone_dir (cwd w) (uuid_hex w)) in *.
  all: repeat match goal with
       | H : bool_decide _ = true |- _ => apply bool_decide_eq_true in H
       | H : bool_decide _ = false |- _ => apply bool_decide_eq_false in H
       end.
  all: try congruence.
  all: try (exfalso; apply Hfresh;
            match goal with H : ∀ q, _ → _ ↔ _ |- _ => by apply H end).
  all: split_and!; [done|set_solver|set_solver|done|done|].
  all: match goal with
       | H : ?t = [] ∨ ?t = [_] |- _ =>
           exists t; split; [by rewrite <-!app_assoc|done]
       end.
Qed.

(** X18.  When git succeeds, [shallow_clone] returns the directory
    "temp_clones/cerebra-<token>" below the working directory; that
    directory and the staging folder are then on disk; git was called
    once, with that directory as target; nothing was removed and nothing
    was written to standard output or standard error. *)
Theorem shallow_clone_success (w : world) (repo_url branch : string)
    (tree : list entry) (st : state) :
  clone_from w = inr tree →
  clone_dir (cwd w) (uuid_hex w) ∉ disk st →
  fst (shallow_clone w repo_url branch st)
  = inr (cwd w ++ ["temp_clones"] ++ ["cerebra-" +:+ uuid_hex w])
  ∧ clone_dir (cwd w) (uuid_hex w)
    ∈ disk (snd (shallow_clone w repo_url branch st))
  ∧ Path.joinpath (cwd w) "temp_clones"
    ∈ disk (snd (shallow_clone w repo_url branch st))
  ∧ stdout (snd (shallow_clone w repo_url branch st)) = stdout st
  ∧ stderr (snd (shallow_clone w repo_url branch st)) = stderr st
  ∧ ∃ t, trace (snd (shallow_clone w repo_url branch st))
         = trace st ++ t
           ++ [EvMkdir (clone_dir (cwd w) (uuid_hex w));
               EvClone repo_url branch (clone_dir (cwd w) (uuid_hex w))]
         ∧ (t = [] ∨ t = [EvMkdir (Path.joinpath (cwd w) "temp_clones")]).
Proof.
  intros Hclone Hfresh.
  pose proof (shallow_clone_success_post w repo_url branch tree st
                Hclone Hfresh) as (Hr & Hrest).
  split; [|exact Hrest]. rewrite Hr. unfold clone_dir, Path.joinpath.
  by rewrite <-app_assoc.
Qed.

Lemma shallow_clone_success_witness :
  fst (shallow_clone world_ok "https://example.com/repo.git" "main"
         (init_state world_ok))
  = inr (cwd world_ok ++ ["temp_clones"] ++ ["cerebra-" +:+ uuid_hex world_ok])
  ∧ example_clone_dir
    ∈ disk (snd (shallow_clone world_ok "https://example.com/repo.git"
                   "main" (init_state world_ok))).
Proof.
  destruct (shallow_clone_success world_ok "https://example.com/repo.git"
              "main" example_tree (init_state world_ok))
    as (Hr & Hdisk & _).
  - reflexivity.
  - refine (bool_decide_eq_false_1 _ _). by vm_compute.
  - split; [exact Hr|exact Hdisk].
Defined.

(** ** The envelope and the sanitizer as texts *)

Lemma all_chars_app (f : ascii → bool) (a b : string) :
  all_chars f (a +:+ b) = all_chars f a && all_chars f b.
Proof.
  induction a as [|c a IH]; [done|].
  rewrite app_cons. cbn [all_chars]. by rewrite IH, andb_assoc.
Qed.

Lemma json_escape_char_printable (c : ascii) :
  all_chars printable (json_escape_char c) = true.
Proof. destruct c as [[] [] [] [] [] [] [] []]; reflexivity. Qed.

Lemma json_escape_printable (s : string) :
  all_chars printable (json_escape s) = true.
Proof.
  induction s as [|c s IH]; [done|]. cbn [json_escape].
  by rewrite all_chars_app, json_escape_char_printable, IH.
Qed.

(** X19.  Whatever the message, the envelope is one line of printable
    ASCII: it holds no newline, no other control character and no
    character beyond the tilde, and it opens with [{"error": "] and
    closes with ["}]. *)
Theorem envelope_is_one_printable_line (msg : string) :
  all_chars printable (json_dumps_error msg) = true
  ∧ json_dumps_error msg
    = ("{" +:+ Py.dq +:+ "error" +:+ Py.dq +:+ ": " +:+ Py.dq)
      +:+ json_escape msg +:+ (Py.dq +:+ "}").
Proof.
  split.
  - unfold json_dumps_error, quoted.
    rewrite !all_chars_app, json_escape_printable. reflexivity.
  - unfold json_dumps_error, quoted. by rewrite !app_assoc_str.
Qed.






Lemma lstrip_clean (s : string) : starts_clean (Py.lstrip s).
Proof.
  induction s as [|c s IH]; [done|]. cbn [Py.lstrip].
  destruct (Py.isspace c) eqn:Hc; [done|]. exact Hc.
Qed.

Lemma lstrip_id (s : string) : starts_clean s → Py.lstrip s = s.
Proof. destruct s as [|c s]; [done|]. cbn. by intros ->. Qed.

Lemma rstrip_clean (s : string) :
  starts_clean s → starts_clean (Py.rstrip s).
Proof.
  destruct s as [|c s]; [done|]. cbn [starts_clean Py.rstrip]. intros Hc.
  destruct (Py.rstrip s); [by rewrite Hc|done].
Qed.

Lemma rstrip_idem (s : string) : Py.rstrip (Py.rstrip s) = Py.rstrip s.
Proof.
  induction s as [|c s IH]; [done|]. cbn [Py.rstrip].
  destruct (Py.rstrip s) as [|d r] eqn:Hr.
  - destruct (Py.isspace c) eqn:Hc; [done|]. cbn. by rewrite Hc.
  - change (Py.rstrip (String c (String d r)))
      with (match Py.rstrip (String d r) with
            | EmptyString =>
                if Py.isspace c then EmptyString else String c EmptyString
            | r0 => String c r0
            end).
    by rewrite IH.
Qed.

Lemma strip_idem (s : string) : Py.strip (Py.strip s) = Py.strip s.
Proof.
  unfold Py.strip.
  rewrite (lstrip_id (Py.rstrip (Py.lstrip s)))
    by apply rstrip_clean, lstrip_clean.
  apply rstrip_idem.
Qed.

Lemma rstrip_id_last (r : string) :
  ∀ n c, String.get n r = Some c → String.length r = S n →
         Py.isspace c = false → Py.rstrip r = r.
Proof.
  induction r as [|d r IH]; intros n c Hget Hlen Hc; [done|].
  cbn [Py.rstrip]. destruct n as [|n].
  - destruct r; [|done]. cbn in Hget. injection Hget as ->.
    cbn. by rewrite Hc.
  - cbn in Hget, Hlen. rewrite (IH n c Hget) by (done || lia).
    by destruct r.
Qed.

Lemma substring_length (s : string) :
  ∀ n m, (n + m ≤ String.length s)%nat →
         String.length (String.substring n m s) = m.
Proof.
  induction s as [|c s IH]; intros [|n] [|m] Hle; cbn in *; try done;
    try lia.
  - f_equal. apply (IH 0%nat). lia.
  - apply (IH n 0%nat). lia.
  - apply (IH n (S m)). lia.
Qed.

Lemma substring_zero (s : string) (n : nat) : String.substring n 0 s = "".
Proof. revert n. induction s as [|c s IH]; intros [|n]; cbn; auto. Qed.

Lemma sanitize_trimmed (s : string) :
  Py.strip s = s → Py.startswith s fence = false → sanitize s = s.
Proof. intros Hs Hf. unfold sanitize. by rewrite Hs, Hf. Qed.

Lemma sanitize_object (r : string) (n : nat) :
  String.get 0 r = Some "{"%char → String.get n r = Some "}"%char →
  String.length r = S n → sanitize r = r.
Proof.
  intros Hopen Hclose Hlen.
  destruct r as [|c r]; [done|]. cbn in Hopen. injection Hopen as ->.
  apply sanitize_trimmed; [|done].
  unfold Py.strip. rewrite lstrip_id by done.
  by apply (rstrip_id_last _ n "}"%char).
Qed.

(** X21.  Sanitizing is idempotent: what comes out of the sanitizer
    goes through it unchanged. *)
Theorem sanitize_idempotent (content : string) :
  sanitize (sanitize content) = sanitize content.
Proof.
  remember (sanitize content) as r eqn:Hr.
  unfold sanitize, Py.find, Py.rfind in Hr. cbv zeta in Hr.
  destruct (Py.startswith (Py.strip content) fence) eqn:Hfence.
  - destruct (Py.find_opt "{" (Py.strip content)) as [i|] eqn:Hi.
    + destruct (Py.rfind_opt "}" (Py.strip content)) as [j|] eqn:Hj.
      * apply find_opt_first in Hi as [Hi _].
        apply rfind_opt_last in Hj as [Hj _].
        pose proof (get_Some_lt _ _ _ Hi) as Hilt.
        pose proof (get_Some_lt _ _ _ Hj) as Hjlt.
        cbn [Py.index_or_minus1] in Hr.
        replace (Z.of_nat i =? -1) with false in Hr
          by (symmetry; apply Z.eqb_neq; lia).
        replace (Z.of_nat j =? -1) with false in Hr
          by (symmetry; apply Z.eqb_neq; lia).
        cbn [negb andb] in Hr. rewrite slice_between in Hr by done.
        subst r. destruct (decide (i ≤ j)%nat) as [Hle|Hgt].
        -- apply (sanitize_object _ (j - i)).
           ++ rewrite String.substring_correct1 by lia. exact Hi.
           ++ rewrite String.substring_correct1 by lia.
              replace (j - i + i)%nat with j by lia. exact Hj.
           ++ rewrite substring_length by lia. lia.
        -- replace (j + 1 - i)%nat with 0%nat by lia.
           by rewrite substring_zero.
      * cbn [Py.index_or_minus1] in Hr. rewrite andb_false_r in Hr.
        subst r. unfold sanitize, Py.rfind. cbv zeta.
        rewrite strip_idem, Hfence, Hj.
        cbn [Py.index_or_minus1]. by rewrite andb_false_r.
    + cbn [Py.index_or_minus1] in Hr. rewrite Z.eqb_refl in Hr.
      cbn [negb andb] in Hr. subst r.
      unfold sanitize, Py.find. cbv zeta.
      by rewrite strip_idem, Hfence, Hi.
  - subst r. unfold sanitize. cbv zeta. by rewrite strip_idem, Hfence.
Qed.

Lemma lstrip_length (s : string) :
  (String.length (Py.lstrip s) ≤ String.length s)%nat.
Proof.
  induction s as [|c s IH]; [done|]. cbn [Py.lstrip].
  destruct (Py.isspace c); cbn [String.length]; lia.
Qed.

Lemma rstrip_length (s : string) :
  (String.length (Py.rstrip s) ≤ String.length s)%nat.
Proof.
  induction s as [|c s IH]; [done|]. cbn [Py.rstrip].
  destruct (Py.rstrip s); [destruct (Py.isspace c)|];
    cbn [String.length] in *; lia.
Qed.

Lemma substring_length_le_whole (s : string) :
  ∀ n m, (String.length (String.substring n m s) ≤ String.length s)%nat.
Proof.
  induction s as [|c s IH]; intros [|n] [|m]; cbn; try lia.
  - specialize (IH 0%nat m). lia.
  - specialize (IH n 0%nat). lia.
  - specialize (IH n (S m)). lia.
Qed.

(** X22.  The sanitizer only takes away: its result is never longer
    than the response it was given. *)
Theorem sanitize_never_longer (content : string) :
  Py.len (sanitize content) <= Py.len content.
Proof.
  assert (Py.len (Py.strip content) <= Py.len content) as Hstrip.
  { unfold Py.len, Py.strip.
    pose proof (rstrip_length (Py.lstrip content)).
    pose proof (lstrip_length content). lia. }
  unfold sanitize.
  destruct (Py.startswith _ fence); [|done].
  destruct (negb _ && negb _); [|done].
  unfold Py.slice.
  pose proof (substring_length_le_whole (Py.strip content)
    (Z.to_nat (Py.clamp (Py.len (Py.strip content))
                 (Py.find (Py.strip content) "{")))
    (Z.to_nat (Py.clamp (Py.len (Py.strip content))
                 (Py.rfind (Py.strip content) "}" + 1)
               - Py.clamp (Py.len (Py.strip content))
                   (Py.find (Py.strip content) "{")))) as Hsub.
  unfold Py.len in *. lia.
Qed.

Lemma name_of_child (root : path) (n : string) :
  Path.name (Path.joinpath root n) = n ∨ Path.name (Path.joinpath root n) = "".
Proof.
  unfold Path.joinpath, Path.name. destruct root as [|r root]; cbn [app].
  - destruct (String.eqb n "/"); auto.
  - left. destruct root as [|x root]; [done|].
    apply (List.last_last (r :: x :: root) n "").
Qed.

Lemma suffix_without_inner_dot (root : path) (n : string) :
  Py.rfind n "." <= 0 → Path.suffix (Path.joinpath root n) = "".
Proof.
  intros Hdot. unfold Path.suffix.
  destruct (name_of_child root n) as [-> | ->]; [|done].
  by replace (0 <? Py.rfind n ".") with false
    by (symmetry; apply Z.ltb_ge; lia).
Qed.

(** X23.  A file whose name holds no dot, or whose only dot is its first
    character (".py", ".gitignore"), has no extension for the collector
    and is never collected. *)
Theorem dotless_names_not_collected
    (root : path) (n : string) (regular : bool) (text : option string) :
  Py.rfind n "." <= 0 →
  collect_source_files root [File n regular text] = [].
Proof.
  intros Hdot. rewrite collect_is_filter. unfold rglob.
  cbn [flat_map walk app List.filter]. unfold collected, source_ext.
  cbn [parts]. rewrite (suffix_without_inner_dot root n Hdot).
  by rewrite !andb_false_r.
Qed.

Lemma dotless_names_not_collected_witness :
  collect_source_files ["/"; "w"] [File ".py" true (Some "x = 1")] = [].
Proof. apply dotless_names_not_collected. by vm_compute. Defined.
